(** * slidingwindow: a shallow embedding of [slidingwindow/SlidingWindow.py]

    The Python module computes a list of rectangular windows that tile a
    two-dimensional array.  Python integers are unbounded and are modelled
    by [Z]; exceptions are modelled by a result type.  The overlap fraction
    is any Python number.  For an exact one (an [int] or a
    [fractions.Fraction]) it is modelled by a rational [Q], and the layout
    function is [generateForSize]; for a [float] it is an IEEE 754
    binary64 number, a [spec_float], the product [windowSize *
    overlapPercent] is the rounded floating-point product, and the layout
    function is [generateForSize_float].  The quotient [width / countX] of
    two [int]s is a float in either case. *)

From Stdlib Require Import ZArith QArith Qround Lia Ascii SpecFloat.
From stdpp Require Import base decidable option list strings pretty gmap.

Local Open Scope Z_scope.

(** ** Exceptions *)

(** The exceptions the module can raise.  The two [raise Error(...)]
    statements of the source name a class [Error] that is bound nowhere in
    the module (it only imports [math]), so evaluating the operand of the
    [raise] statement itself raises [NameError].  [Raised] stands for any
    exception that a collaborator (the array, a transform) raises. *)
Inductive PyExn : Type :=
  | NameError (name : string)
  | ValueError (msg : string)
  | IndexError
  | ZeroDivisionError
  | OverflowError (msg : string)
  | TypeError
  | Raised (tag : string).

Inductive result (A : Type) : Type :=
  | Ok (a : A)
  | Raise (e : PyExn).
Arguments Ok {A} a.
Arguments Raise {A} e.

Definition bind {A B : Type} (r : result A) (k : A -> result B) : result B :=
  match r with
  | Ok a => k a
  | Raise e => Raise e
  end.

Declare Scope py_scope.
Delimit Scope py_scope with py.
Notation "'let!' x ':=' r 'in' k" := (bind r (fun x => k))
  (at level 10, x name, r at level 200, k at level 200) : py_scope.
Local Open Scope py_scope.


(** ** The order tags *)

(** [class DimOrder]: two class attributes, each a list of one-letter
    strings. *)
Module DimOrder.
Definition ChannelHeightWidth : list string := ["c"; "h"; "w"]%string.
Definition HeightWidthChannel : list string := ["h"; "w"; "c"]%string.
End DimOrder.

(** [class IterOrder]: dimensions listed from the innermost (changing
    fastest) to the outermost. *)
Module IterOrder.
Definition TransformHeightWidth : list string := ["t"; "y"; "x"]%string.
Definition TransformWidthHeight : list string := ["t"; "x"; "y"]%string.
End IterOrder.

(** ** Builtins used by the module *)

(** [range(start, stop, step)], materialised.  The length follows
    CPython's [compute_range_length]. *)
Definition range_length (start stop step : Z) : Z :=
  let '(lo, hi, st) :=
    if 0 <? step then (start, stop, step) else (stop, start, - step) in
  if hi <=? lo then 0 else (hi - lo - 1) / st + 1.

Definition py_range (start stop step : Z) : result (list Z) :=
  if step =? 0 then Raise (ValueError "range() arg 3 must not be zero")
  else Ok (map (fun k : nat => start + Z.of_nat k * step)
               (seq 0 (Z.to_nat (range_length start stop step)))).

(** [int(math.floor(n * q))] for an exact number [q] (an [int] or a
    [fractions.Fraction]): product and floor are exact. *)
Definition floor_mul (n : Z) (q : Q) : Z := Qfloor (inject_Z n * q).

(** *** Floats

    A Python [float] is an IEEE 754 binary64 number: [spec_float] with a
    precision of 53 bits and infinities at exponent 1024, rounding to
    nearest, ties to even. *)

(** [float(n)], as in [PyLong_AsDouble]: the nearest float, or
    [OverflowError] when that would be an infinity. *)
Definition float_of_int (n : Z) : result spec_float :=
  match binary_normalize 53 1024 n 0 false with
  | S754_infinity _ => Raise (OverflowError "int too large to convert to float")
  | f => Ok f
  end.

(** [n * f] for an [int] and a [float]: the integer is converted, then
    the two floats are multiplied; the product may be an infinity or a
    NaN, which is no error. *)
Definition int_mul_float (n : Z) (f : spec_float) : result spec_float :=
  let! x := float_of_int n in
  Ok (SFmul 53 1024 x f).

(** The integer [m * 2^e], rounded down or up. *)
Definition floor_scaled (m e : Z) : Z :=
  if 0 <=? e then m * 2 ^ e else m / 2 ^ (- e).

Definition ceil_scaled (m e : Z) : Z := - floor_scaled (- m) e.

(** [math.floor(f)] and [math.ceil(f)] of a float. *)
Definition math_floor (f : spec_float) : result Z :=
  match f with
  | S754_zero _ => Ok 0
  | S754_finite s m e => Ok (floor_scaled (if s then Z.neg m else Z.pos m) e)
  | S754_infinity _ => Raise (OverflowError "cannot convert float infinity to integer")
  | S754_nan => Raise (ValueError "cannot convert float NaN to integer")
  end.

Definition math_ceil (f : spec_float) : result Z :=
  match f with
  | S754_zero _ => Ok 0
  | S754_finite s m e => Ok (ceil_scaled (if s then Z.neg m else Z.pos m) e)
  | S754_infinity _ => Raise (OverflowError "cannot convert float infinity to integer")
  | S754_nan => Raise (ValueError "cannot convert float NaN to integer")
  end.

(** [a / b] for two [int]s, as in [long_true_divide]: the float nearest
    to the exact quotient. *)
Definition int_truediv (a b : Z) : result spec_float :=
  let operand n :=
    match n with
    | Z0 => S754_zero false
    | Z.pos m => S754_finite false m 0
    | Z.neg m => S754_finite true m 0
    end in
  if b =? 0 then Raise ZeroDivisionError
  else
    match SFdiv 53 1024 (operand a) (operand b) with
    | S754_infinity _ =>
        Raise (OverflowError "integer division result too large for a float")
    | q => Ok q
    end.

(** [int(math.floor(n * f))] for a float [f]. *)
Definition windowOverlap (n : Z) (f : spec_float) : result Z :=
  let! product := int_mul_float n f in
  math_floor product.

(** [math.ceil(n / d)] for two [int]s. *)
Definition ceil_div (n d : Z) : result Z :=
  let! q := int_truediv n d in
  math_ceil q.

(** The float nearest to [m * 2^e]. *)
Definition double (m e : Z) : spec_float := binary_normalize 53 1024 m e false.

(** The rational number a finite float stands for. *)
Definition scaled_value (m e : Z) : Q :=
  if 0 <=? e then inject_Z (m * 2 ^ e) else m # Z.to_pos (2 ^ (- e)).

Definition float_value (f : spec_float) : option Q :=
  match f with
  | S754_zero _ => Some (inject_Z 0)
  | S754_finite s m e => Some (scaled_value (if s then Z.neg m else Z.pos m) e)
  | S754_infinity _ | S754_nan => None
  end.

(** Whether a rounding location records a remainder. *)
Definition inexact (l : location) : bool :=
  match l with loc_Exact => false | loc_Inexact _ => true end.

(** The ceiling of the exact quotient [n / d], as the specification
    writes the derived window size; to be compared with [ceil_div]. *)
Definition exact_ceil_div (n d : Z) : Z := Qceiling (inject_Z n / inject_Z d).

(** [l.index(v)]: position of the first occurrence, [ValueError] if there
    is none. *)
Fixpoint list_index (v : string) (l : list string) : result nat :=
  match l with
  | [] => Raise (ValueError "is not in list")
  | a :: l' =>
      if decide (a = v) then Ok 0%nat
      else let! i := list_index v l' in Ok (S i)
  end.

(** [shape[i]] for a non-negative position. *)
Definition shape_get (shape : list Z) (i : nat) : result Z :=
  match shape !! i with
  | Some n => Ok n
  | None => Raise IndexError
  end.

(** A [slice(start, stop)] object; the module never gives a step. *)
Record slice : Type := mkSlice { start : option Z; stop : option Z }.

(** The positions a slice selects on an axis of a given length (step 1),
    after CPython's [PySlice_AdjustIndices]. *)
Definition adjust_index (i length : Z) : Z :=
  if i <? 0 then (if i + length <? 0 then 0 else i + length)
  else if length <=? i then length else i.

Definition slice_indices (s : slice) (length : Z) : list Z :=
  let lo := match start s with None => 0 | Some i => adjust_index i length end in
  let hi := match stop s with None => length | Some i => adjust_index i length end in
  match py_range lo hi 1 with
  | Ok l => l
  | Raise _ => []
  end.

(** ** [class SlidingWindow] *)

Section Window.
(** [A] is the type of the objects handed to and returned by the
    collaborators: arrays, views, results of transforms. *)
Context {A : Type}.

Record SlidingWindow : Type := mkWindow {
  x : Z;
  y : Z;
  w : Z;
  h : Z;
  dimOrder : list string;
  transform : option (A -> result A)
}.

Definition getRect (self : SlidingWindow) : Z * Z * Z * Z :=
  (x self, y self, w self, h self).

Definition setRect (self : SlidingWindow) (rect : Z * Z * Z * Z) : SlidingWindow :=
  let '(x', y', w', h') := rect in
  mkWindow x' y' w' h' (dimOrder self) (transform self).

Definition indices (self : SlidingWindow) (includeChannel : bool) : result (list slice) :=
  if decide (dimOrder self = DimOrder.HeightWidthChannel) then
    Ok [ mkSlice (Some (y self)) (Some (y self + h self));
         mkSlice (Some (x self)) (Some (x self + w self)) ]
  else if decide (dimOrder self = DimOrder.ChannelHeightWidth) then
    if includeChannel then
      Ok [ mkSlice None None;
           mkSlice (Some (y self)) (Some (y self + h self));
           mkSlice (Some (x self)) (Some (x self + w self)) ]
    else
      Ok [ mkSlice (Some (y self)) (Some (y self + h self));
           mkSlice (Some (x self)) (Some (x self + w self)) ]
  else Raise (NameError "Error").

(** [matrix[...]] belongs to the array library. *)
Variable getitem : A -> list slice -> result A.

Definition apply (self : SlidingWindow) (matrix : A) : result A :=
  let! idx := indices self true in
  let! view := getitem matrix idx in
  match transform self with
  | Some f => f view
  | None => Ok view
  end.
End Window.
Arguments SlidingWindow A : clear implicits.

(** ** The layout engine *)

(** [iterate_dims] is a generator; the model is the sequence obtained by
    running it to exhaustion.  In the [else] branch the exception is raised
    on the first [next], before anything is yielded, so the outcome is
    either the whole sequence or the exception. *)
Definition iterate_dims {T : Type} (xVals yVals : list Z) (tVals : list T)
    (iterorder : list string) : result (list (Z * Z * T)) :=
  if decide (iterorder = IterOrder.TransformHeightWidth) then
    Ok (flat_map (fun x =>
          flat_map (fun y =>
            map (fun t => (x, y, t)) tVals) yVals) xVals)
  else if decide (iterorder = IterOrder.TransformWidthHeight) then
    Ok (flat_map (fun y =>
          flat_map (fun x =>
            map (fun t => (x, y, t)) tVals) xVals) yVals)
  else Raise (NameError "Error").

(** Lines 152-155: [if len(offsets) == 0 or offsets[-1] != last:
    offsets.append(last)]. *)
Definition append_last (offsets : list Z) (last : Z) : list Z :=
  if (length offsets =? 0)%nat || negb (List.last offsets 0 =? last)
  then offsets ++ [last] else offsets.

Definition generateForSize {A : Type} (width height : Z) (dimOrder : list string)
    (maxWindowSize : Z) (overlapPercent : Q)
    (transforms : list (option (A -> result A)))
    (overrideWidth overrideHeight : option Z)
    (iterorder : list string) : result (list (SlidingWindow A)) :=
  let windowSizeX := match overrideWidth with None => maxWindowSize | Some v => v end in
  let windowSizeY := match overrideHeight with None => maxWindowSize | Some v => v end in
  let windowSizeX := Z.min windowSizeX width in
  let windowSizeY := Z.min windowSizeY height in
  let windowOverlapX := floor_mul windowSizeX overlapPercent in
  let windowOverlapY := floor_mul windowSizeY overlapPercent in
  let stepSizeX := windowSizeX - windowOverlapX in
  let stepSizeY := windowSizeY - windowOverlapY in
  let lastX := width - windowSizeX in
  let lastY := height - windowSizeY in
  let! xOffsets := py_range 0 (lastX + 1) stepSizeX in
  let! yOffsets := py_range 0 (lastY + 1) stepSizeY in
  let xOffsets := append_last xOffsets lastX in
  let yOffsets := append_last yOffsets lastY in
  let! dims := iterate_dims xOffsets yOffsets (None :: transforms) iterorder in
  Ok (map (fun '(xOffset, yOffset, transform) =>
             mkWindow xOffset yOffset windowSizeX windowSizeY dimOrder transform)
          dims).

(** [generateForSize] called with a [float] overlap: lines 139 and 140
    are evaluated in floating-point arithmetic, and may raise before any
    offset is computed; the rest is the same. *)
Definition generateForSize_float {A : Type} (width height : Z) (dimOrder : list string)
    (maxWindowSize : Z) (overlapPercent : spec_float)
    (transforms : list (option (A -> result A)))
    (overrideWidth overrideHeight : option Z)
    (iterorder : list string) : result (list (SlidingWindow A)) :=
  let windowSizeX := match overrideWidth with None => maxWindowSize | Some v => v end in
  let windowSizeY := match overrideHeight with None => maxWindowSize | Some v => v end in
  let windowSizeX := Z.min windowSizeX width in
  let windowSizeY := Z.min windowSizeY height in
  let! windowOverlapX := windowOverlap windowSizeX overlapPercent in
  let! windowOverlapY := windowOverlap windowSizeY overlapPercent in
  let stepSizeX := windowSizeX - windowOverlapX in
  let stepSizeY := windowSizeY - windowOverlapY in
  let lastX := width - windowSizeX in
  let lastY := height - windowSizeY in
  let! xOffsets := py_range 0 (lastX + 1) stepSizeX in
  let! yOffsets := py_range 0 (lastY + 1) stepSizeY in
  let xOffsets := append_last xOffsets lastX in
  let yOffsets := append_last yOffsets lastY in
  let! dims := iterate_dims xOffsets yOffsets (None :: transforms) iterorder in
  Ok (map (fun '(xOffset, yOffset, transform) =>
             mkWindow xOffset yOffset windowSizeX windowSizeY dimOrder transform)
          dims).

(** An array as far as the layout entry points look at it: its [shape]. *)
Record ndarray : Type := { shape : list Z }.

Definition generate {A : Type} (data : ndarray) (dimOrder : list string)
    (maxWindowSize : Z) (overlapPercent : Q)
    (transforms : list (option (A -> result A)))
    (overrideWidth overrideHeight : option Z)
    (iterorder : list string) : result (list (SlidingWindow A)) :=
  let! iw := list_index "w" dimOrder in
  let! width := shape_get (shape data) iw in
  let! ih := list_index "h" dimOrder in
  let! height := shape_get (shape data) ih in
  generateForSize width height dimOrder maxWindowSize overlapPercent transforms
    overrideWidth overrideHeight iterorder.

Definition generateRectanglarWindows {A : Type} (data : ndarray) (dimOrder : list string)
    (windowShape : Z * Z) (overlapPercent : Q)
    (transforms : list (option (A -> result A)))
    (iterorder : list string) : result (list (SlidingWindow A)) :=
  let! iw := list_index "w" dimOrder in
  let! width := shape_get (shape data) iw in
  let! ih := list_index "h" dimOrder in
  let! height := shape_get (shape data) ih in
  let '(windowHeight, windowWidth) := windowShape in
  generateForSize width height dimOrder 0 overlapPercent transforms
    (Some windowWidth) (Some windowHeight) iterorder.

Definition generateForNumberOfWindows {A : Type} (data : ndarray) (dimOrder : list string)
    (windowCount : Z * Z) (overlapPercent : Q)
    (transforms : list (option (A -> result A)))
    (iterorder : list string) : result (list (SlidingWindow A)) :=
  let! iw := list_index "w" dimOrder in
  let! width := shape_get (shape data) iw in
  let! ih := list_index "h" dimOrder in
  let! height := shape_get (shape data) ih in
  let '(countY, countX) := windowCount in
  let! windowSizeX := ceil_div width countX in
  let! windowSizeY := ceil_div height countY in
  generateForSize width height dimOrder 0 overlapPercent transforms
    (Some windowSizeX) (Some windowSizeY) iterorder.

(** The local variables of [generateForSize], per axis, as functions of
    its arguments. *)
Definition windowSize (maxWindowSize : Z) (override : option Z) (extent : Z) : Z :=
  Z.min (match override with None => maxWindowSize | Some v => v end) extent.

Definition stepSize (ws : Z) (overlapPercent : Q) : Z :=
  ws - floor_mul ws overlapPercent.

Definition axisOffsets (extent ws : Z) (overlapPercent : Q) : result (list Z) :=
  let! offsets := py_range 0 (extent - ws + 1) (stepSize ws overlapPercent) in
  Ok (append_last offsets (extent - ws)).

(** The offsets along one axis for a given step. *)
Definition axisOffsetsStep (extent ws step : Z) : result (list Z) :=
  let! offsets := py_range 0 (extent - ws + 1) step in
  Ok (append_last offsets (extent - ws)).



(** ** The same function over a store of list objects

    Python lists are mutable objects reached through references.  To state
    what [generateForSize] does to the list it is handed, the lists it
    touches live in a store: the caller's [transforms], the offsets, the
    list [[None] + transforms] and the result [windows]. *)

Section Store.
Context {A : Type}.

Inductive pyobj : Type :=
  | IntList (l : list Z)
  | TransformList (l : list (option (A -> result A)))
  | WindowList (l : list (SlidingWindow A)).

Abbreviation store := (gmap nat pyobj).

(** A computation returns a value or raises, and leaves a store. *)
Definition M (R : Type) : Type := store -> result R * store.

Definition ret {R : Type} (v : R) : M R := fun s => (Ok v, s).

Definition lift {R : Type} (r : result R) : M R := fun s => (r, s).

Definition bindM {R S : Type} (m : M R) (k : R -> M S) : M S :=
  fun s =>
    match m s with
    | (Ok v, s') => k v s'
    | (Raise e, s') => (Raise e, s')
    end.

(** A new object gets a reference that is not in use. *)
Definition alloc (o : pyobj) : M nat :=
  fun s => let r := fresh (dom s) in (Ok r, <[r := o]> s).

Definition read_ints (r : nat) : M (list Z) :=
  fun s =>
    match s !! r with
    | Some (IntList l) => (Ok l, s)
    | _ => (Raise TypeError, s)
    end.

Definition read_transforms (r : nat) : M (list (option (A -> result A))) :=
  fun s =>
    match s !! r with
    | Some (TransformList l) => (Ok l, s)
    | _ => (Raise TypeError, s)
    end.

(** [l.append(v)] updates the object in place. *)
Definition append_int (r : nat) (v : Z) : M unit :=
  fun s =>
    match s !! r with
    | Some (IntList l) => (Ok tt, <[r := IntList (l ++ [v])]> s)
    | _ => (Raise TypeError, s)
    end.

Definition append_window (r : nat) (v : SlidingWindow A) : M unit :=
  fun s =>
    match s !! r with
    | Some (WindowList l) => (Ok tt, <[r := WindowList (l ++ [v])]> s)
    | _ => (Raise TypeError, s)
    end.

Fixpoint for_each {X : Type} (l : list X) (body : X -> M unit) : M unit :=
  match l with
  | [] => ret tt
  | a :: l' => bindM (body a) (fun _ => for_each l' body)
  end.

(** Lines 152-155 on the list object itself. *)
Definition append_last_st (offsets : nat) (last : Z) : M unit :=
  bindM (read_ints offsets) (fun l =>
    if (length l =? 0)%nat || negb (List.last l 0 =? last)
    then append_int offsets last else ret tt).

(** [generateForSize] with [transforms] a reference.  [defaults] is the
    list object created once, when the [def] statement is executed, for
    the default value [transforms=[]]; [transforms = None] stands for a
    call that omits the argument.  The generator reads lists that the
    loop body does not write to ([windows] is a different object), so the
    loop runs over the sequence [iterate_dims] produces. *)
Definition generateForSize_st (defaults : nat) (width height : Z)
    (dimOrder : list string) (maxWindowSize : Z) (overlapPercent : Q)
    (transforms : option nat) (overrideWidth overrideHeight : option Z)
    (iterorder : list string) : M nat :=
  let transforms := match transforms with None => defaults | Some r => r end in
  let windowSizeX := match overrideWidth with None => maxWindowSize | Some v => v end in
  let windowSizeY := match overrideHeight with None => maxWindowSize | Some v => v end in
  let windowSizeX := Z.min windowSizeX width in
  let windowSizeY := Z.min windowSizeY height in
  let windowOverlapX := floor_mul windowSizeX overlapPercent in
  let windowOverlapY := floor_mul windowSizeY overlapPercent in
  let stepSizeX := windowSizeX - windowOverlapX in
  let stepSizeY := windowSizeY - windowOverlapY in
  let lastX := width - windowSizeX in
  let lastY := height - windowSizeY in
  bindM (lift (py_range 0 (lastX + 1) stepSizeX)) (fun rangeX =>
  bindM (alloc (IntList rangeX)) (fun xOffsets =>
  bindM (lift (py_range 0 (lastY + 1) stepSizeY)) (fun rangeY =>
  bindM (alloc (IntList rangeY)) (fun yOffsets =>
  bindM (append_last_st xOffsets lastX) (fun _ =>
  bindM (append_last_st yOffsets lastY) (fun _ =>
  bindM (alloc (WindowList [])) (fun windows =>
  bindM (read_transforms transforms) (fun ts =>
  bindM (alloc (TransformList (None :: ts))) (fun tVals =>
  bindM (read_ints xOffsets) (fun xs =>
  bindM (read_ints yOffsets) (fun ys =>
  bindM (read_transforms tVals) (fun tv =>
  bindM (lift (iterate_dims xs ys tv iterorder)) (fun dims =>
  bindM (for_each dims (fun '(xOffset, yOffset, transform) =>
           append_window windows
             (mkWindow xOffset yOffset windowSizeX windowSizeY dimOrder transform)))
        (fun _ =>
  ret windows)))))))))))))).

(** What a caller sees of an outcome: the windows in the returned list,
    or the exception. *)
Definition outcome (r : result nat * store) : result (list (SlidingWindow A)) :=
  match r with
  | (Ok l, s) =>
      match s !! l with
      | Some (WindowList ws) => Ok ws
      | _ => Raise TypeError
      end
  | (Raise e, _) => Raise e
  end.
End Store.

(** ** A small array collaborator

    Two-dimensional arrays as lists of rows, sliced by a row slice and a
    column slice; enough to run [apply]. *)
Definition take_slice {X : Type} (s : slice) (l : list X) : list X :=
  omap (fun i => l !! Z.to_nat i) (slice_indices s (Z.of_nat (length l))).

Definition getitem2d (m : list (list Z)) (idx : list slice) : result (list (list Z)) :=
  match idx with
  | [rows; cols] => Ok (map (take_slice cols) (take_slice rows m))
  | _ => Raise IndexError
  end.

(** ** Geometry *)

(** Pixel [(i, j)] lies in the rectangle of a window. *)
Definition contains {A : Type} (win : SlidingWindow A) (i j : Z) : Prop :=
  x win <= i < x win + w win /\ y win <= j < y win + h win.

(** The invariants of a window generated against a [width] by [height]
    dataset. *)
Definition window_ok {A : Type} (width height : Z) (win : SlidingWindow A) : Prop :=
  w win > 0 /\ h win > 0 /\ x win >= 0 /\ y win >= 0 /\
  x win + w win <= width /\ y win + h win <= height.



Definition supported_iterorder (iterorder : list string) : Prop :=
  iterorder = IterOrder.TransformHeightWidth \/
  iterorder = IterOrder.TransformWidthHeight.

Definition supported_dimorder (dimOrder : list string) : Prop :=
  dimOrder = DimOrder.HeightWidthChannel \/
  dimOrder = DimOrder.ChannelHeightWidth.

Arguments pyobj A : clear implicits.
Arguments M A R : clear implicits.

(** The objects that existed in [s0] are the same in [s]. *)
Definition unchanged {A : Type} (s0 s : gmap nat (pyobj A)) : Prop :=
  forall l, l ∈ dom s0 -> s !! l = s0 !! l.

(** The first four lines of [generate], [generateRectanglarWindows] and
    [generateForNumberOfWindows]: width and height as read from the shape. *)
Definition shape_dimensions (data : ndarray) (dimOrder : list string) : result (Z * Z) :=
  let! iw := list_index "w" dimOrder in
  let! width := shape_get (shape data) iw in
  let! ih := list_index "h" dimOrder in
  let! height := shape_get (shape data) ih in
  Ok (width, height).

(** ** Rendering *)

(** [str(n)] for an integer: its decimal digits, after a minus sign when
    it is negative. *)
Definition py_str (n : Z) : string := pretty n.

Definition __str__ {A : Type} (self : SlidingWindow A) : string :=
  ((((((("(" +:+ py_str (x self)) +:+ ",") +:+ py_str (y self)) +:+ ",")
      +:+ py_str (w self)) +:+ ",") +:+ py_str (h self)) +:+ ")".

Definition __repr__ {A : Type} (self : SlidingWindow A) : string :=
  __str__ self.

(** The character occurs in the string. *)
Fixpoint occurs (c : ascii) (s : string) : bool :=
  match s with
  | EmptyString => false
  | String a s' => if decide (a = c) then true else occurs c s'
  end.

(** Replaces [offsets] by the list it is known to be, without unfolding
    that list. *)
Ltac ok_subst H :=
  match type of H with
  | Ok ?a = Ok ?b => let E := fresh "E" in
                     assert (E : a = b) by congruence; clear H;
                     first [subst b | subst a]
  end.

(** Membership in a list written out. *)
Ltac in_list :=
  solve [ repeat first [ apply list_elem_of_here | apply list_elem_of_further ] ].

(** Closes a side condition on concrete numbers. *)
Ltac by_computation :=
  solve [ lia
        | reflexivity
        | unfold Qle, Qlt; simpl; lia
        | vm_compute; first [ reflexivity | discriminate | intuition discriminate ]
        | left; reflexivity
        | right; reflexivity ].

(** * Properties *)

(** ** [range] *)

Lemma range_length_up (start stop step : Z) :
  0 < step ->
  range_length start stop step =
    if stop <=? start then 0 else (stop - start - 1) / step + 1.
Proof.
  intros Hs. unfold range_length.
  destruct (Z.ltb_spec 0 step); [reflexivity | lia].
Qed.

Lemma range_length_down_empty (stop step : Z) :
  step <= 0 -> 0 <= stop -> range_length 0 stop step = 0.
Proof.
  intros Hs Hstop. unfold range_length.
  destruct (Z.ltb_spec 0 step); [lia |].
  destruct (Z.leb_spec 0 stop); [reflexivity | lia].
Qed.

Lemma range_length_nonneg (start stop step : Z) :
  0 < step -> 0 <= range_length start stop step.
Proof.
  intros Hs. rewrite range_length_up by assumption.
  destruct (Z.leb_spec stop start); [lia |].
  assert (0 <= (stop - start - 1) / step) by (apply Z.div_pos; lia). lia.
Qed.

(** For a positive step, [k < range_length] says that the [k]-th term is
    below [stop]. *)
Lemma range_length_spec (start stop step k : Z) :
  0 < step -> 0 <= k ->
  k < range_length start stop step <-> start + k * step < stop.
Proof.
  intros Hs Hk. rewrite range_length_up by assumption.
  destruct (Z.leb_spec stop start) as [Hle | Hlt].
  - nia.
  - pose proof (Z.div_mod (stop - start - 1) step ltac:(lia)) as Hdm.
    pose proof (Z.mod_pos_bound (stop - start - 1) step Hs) as Hmod.
    split; intros H; nia.
Qed.


Lemma py_range_elem_of (start stop step : Z) (l : list Z) (v : Z) :
  0 < step ->
  py_range start stop step = Ok l ->
  v ∈ l <-> exists k, 0 <= k /\ start + k * step < stop /\ v = start + k * step.
Proof.
  intros Hs. unfold py_range.
  destruct (Z.eqb_spec step 0); [lia |]. intros [= <-].
  rewrite list_elem_of_fmap. split.
  - intros (k & -> & Hk). apply elem_of_seq in Hk.
    exists (Z.of_nat k). split; [lia |]. split; [| reflexivity].
    apply range_length_spec; lia.
  - intros (k & Hk0 & Hlt & ->).
    exists (Z.to_nat k). split; [f_equal; lia |].
    apply elem_of_seq. apply range_length_spec in Hlt; lia.
Qed.

Lemma py_range_ok (start stop step : Z) :
  step <> 0 -> exists l, py_range start stop step = Ok l.
Proof.
  intros Hs. unfold py_range.
  destruct (Z.eqb_spec step 0); [contradiction | eauto].
Qed.

Lemma py_range_zero_step (start stop : Z) :
  py_range start stop 0 = Raise (ValueError "range() arg 3 must not be zero").
Proof. reflexivity. Qed.

Lemma py_range_down_empty (stop step : Z) :
  step < 0 -> 0 <= stop -> py_range 0 stop step = Ok [].
Proof.
  intros Hs Hstop. unfold py_range.
  destruct (Z.eqb_spec step 0); [lia |].
  rewrite range_length_down_empty by lia. reflexivity.
Qed.

(** ** The offsets along one axis *)

Lemma last_elem_of (a d : Z) (l : list Z) : List.last (a :: l) d ∈ a :: l.
Proof.
  revert a. induction l as [| b l IH]; intros a.
  - simpl. apply list_elem_of_here.
  - change (List.last (a :: b :: l) d) with (List.last (b :: l) d).
    apply list_elem_of_further, IH.
Qed.

Lemma elem_of_append_last (offsets : list Z) (last v : Z) :
  v ∈ append_last offsets last <-> v ∈ offsets \/ v = last.
Proof.
  unfold append_last.
  destruct (_ || _) eqn:Hc.
  - rewrite elem_of_app, list_elem_of_singleton. tauto.
  - split; [tauto |]. intros [H | ->]; [assumption |].
    apply orb_false_iff in Hc as [Hlen Hlast].
    apply negb_false_iff, Z.eqb_eq in Hlast.
    destruct offsets as [| a offsets]; [discriminate |].
    rewrite <- Hlast. apply last_elem_of.
Qed.

Lemma axisOffsets_ok (extent ws : Z) (p : Q) :
  stepSize ws p <> 0 ->
  exists l r, py_range 0 (extent - ws + 1) (stepSize ws p) = Ok r /\
              l = append_last r (extent - ws) /\
              axisOffsets extent ws p = Ok l.
Proof.
  intros Hs. destruct (py_range_ok 0 (extent - ws + 1) _ Hs) as [r Hr].
  exists (append_last r (extent - ws)), r.
  unfold axisOffsets. rewrite Hr. auto.
Qed.

(** Every offset is a valid top-left position. *)
Lemma axisOffsets_bounds (extent ws : Z) (p : Q) (l : list Z) (v : Z) :
  1 <= stepSize ws p -> ws <= extent ->
  axisOffsets extent ws p = Ok l -> v ∈ l -> 0 <= v <= extent - ws.
Proof.
  intros Hs Hle Hl Hv.
  destruct (axisOffsets_ok extent ws p ltac:(lia)) as (l' & r & Hr & -> & Hl').
  rewrite Hl in Hl'. injection Hl' as ->.
  apply elem_of_append_last in Hv as [Hv | ->]; [| lia].
  apply (py_range_elem_of 0 _ (stepSize ws p) r v ltac:(lia) Hr) in Hv
    as (k & Hk & Hlt & ->).
  nia.
Qed.

(** Every position of the axis lies under some window. *)
Lemma axisOffsets_cover (extent ws : Z) (p : Q) (l : list Z) (i : Z) :
  1 <= stepSize ws p <= ws -> ws <= extent ->
  axisOffsets extent ws p = Ok l ->
  0 <= i < extent -> exists v, v ∈ l /\ v <= i < v + ws.
Proof.
  intros [Hs1 Hs2] Hle Hl Hi.
  destruct (axisOffsets_ok extent ws p ltac:(lia)) as (l' & r & Hr & -> & Hl').
  rewrite Hl in Hl'. injection Hl' as ->.
  destruct (Z_lt_le_dec i (extent - ws)) as [Hlt | Hge].
  - set (st := stepSize ws p) in *.
    pose proof (Z.div_mod i st ltac:(lia)) as Hdm.
    pose proof (Z.mod_pos_bound i st ltac:(lia)) as Hmod.
    assert (0 <= i / st) by (apply Z.div_pos; lia).
    exists (i / st * st). split; [| nia].
    apply elem_of_append_last. left.
    apply (py_range_elem_of 0 _ st r _ ltac:(lia) Hr).
    exists (i / st). split; [assumption |]. split; [nia | lia].
  - exists (extent - ws). split; [| lia].
    apply elem_of_append_last. right. reflexivity.
Qed.

(** ** [iterate_dims] and [generateForSize] *)

Lemma iterate_dims_ok {T : Type} (xs ys : list Z) (ts : list T) (io : list string) :
  supported_iterorder io -> exists dims, iterate_dims xs ys ts io = Ok dims.
Proof.
  intros [-> | ->]; unfold iterate_dims; simpl; eauto.
Qed.

Lemma iterate_dims_elem_of {T : Type} (xs ys : list Z) (ts : list T)
    (io : list string) (dims : list (Z * Z * T)) (a b : Z) (t : T) :
  iterate_dims xs ys ts io = Ok dims ->
  (a, b, t) ∈ dims <-> a ∈ xs /\ b ∈ ys /\ t ∈ ts.
Proof.
  unfold iterate_dims.
  repeat case_decide; intros [= <-]; rewrite list_elem_of_In, in_flat_map;
    setoid_rewrite in_flat_map; setoid_rewrite in_map_iff;
    rewrite !list_elem_of_In.
  - split.
    + intros (a' & Ha & b' & Hb & t' & [= -> -> ->] & Ht). auto.
    + intros (Ha & Hb & Ht). eauto 10.
  - split.
    + intros (b' & Hb & a' & Ha & t' & [= -> -> ->] & Ht). auto.
    + intros (Ha & Hb & Ht). eauto 10.
Qed.

(** [generateForSize] in terms of its per-axis quantities. *)
Lemma generateForSize_eq {A : Type} (width height : Z) (dimOrder : list string)
    (maxWindowSize : Z) (p : Q) (transforms : list (option (A -> result A)))
    (overrideWidth overrideHeight : option Z) (io : list string) :
  generateForSize width height dimOrder maxWindowSize p transforms
    overrideWidth overrideHeight io =
  let wsX := windowSize maxWindowSize overrideWidth width in
  let wsY := windowSize maxWindowSize overrideHeight height in
  let! xOffsets := axisOffsets width wsX p in
  let! yOffsets := axisOffsets height wsY p in
  let! dims := iterate_dims xOffsets yOffsets (None :: transforms) io in
  Ok (map (fun '(xOffset, yOffset, transform) =>
             mkWindow xOffset yOffset wsX wsY dimOrder transform) dims).
Proof.
  unfold generateForSize, axisOffsets, stepSize, windowSize. cbv zeta.
  repeat match goal with
         | |- context [py_range ?a ?b ?c] => destruct (py_range a b c); simpl
         end; reflexivity.
Qed.

Lemma generateForSize_inv {A : Type} (width height : Z) (dimOrder : list string)
    (maxWindowSize : Z) (p : Q) (transforms : list (option (A -> result A)))
    (overrideWidth overrideHeight : option Z) (io : list string)
    (wins : list (SlidingWindow A)) :
  generateForSize width height dimOrder maxWindowSize p transforms
    overrideWidth overrideHeight io = Ok wins ->
  let wsX := windowSize maxWindowSize overrideWidth width in
  let wsY := windowSize maxWindowSize overrideHeight height in
  exists xs ys dims,
    axisOffsets width wsX p = Ok xs /\
    axisOffsets height wsY p = Ok ys /\
    iterate_dims xs ys (None :: transforms) io = Ok dims /\
    wins = map (fun '(xOffset, yOffset, transform) =>
                  mkWindow xOffset yOffset wsX wsY dimOrder transform) dims.
Proof.
  rewrite generateForSize_eq. cbv zeta.
  destruct (axisOffsets width _ p) as [xs | e]; [| discriminate].
  destruct (axisOffsets height _ p) as [ys | e]; [| discriminate].
  simpl. destruct (iterate_dims xs ys _ io) as [dims | e] eqn:Hd; [| discriminate].
  simpl. intros [= <-]. exists xs, ys, dims. auto.
Qed.

Lemma generateForSize_ok {A : Type} (width height : Z) (dimOrder : list string)
    (maxWindowSize : Z) (p : Q) (transforms : list (option (A -> result A)))
    (overrideWidth overrideHeight : option Z) (io : list string) :
  stepSize (windowSize maxWindowSize overrideWidth width) p <> 0 ->
  stepSize (windowSize maxWindowSize overrideHeight height) p <> 0 ->
  supported_iterorder io ->
  exists wins,
    generateForSize width height dimOrder maxWindowSize p transforms
      overrideWidth overrideHeight io = Ok wins.
Proof.
  intros Hx Hy Hio. rewrite generateForSize_eq. cbv zeta.
  destruct (axisOffsets_ok width _ p Hx) as (xs & _ & _ & _ & ->).
  destruct (axisOffsets_ok height _ p Hy) as (ys & _ & _ & _ & ->).
  simpl.
  destruct (iterate_dims_ok xs ys (None :: transforms) io Hio) as [dims ->].
  simpl. eauto.
Qed.

(** The windows are the offsets crossed with the transforms. *)
Lemma generateForSize_elem_of {A : Type} (width height : Z) (dimOrder : list string)
    (maxWindowSize : Z) (p : Q) (transforms : list (option (A -> result A)))
    (overrideWidth overrideHeight : option Z) (io : list string)
    (wins : list (SlidingWindow A)) (xs ys : list Z) (win : SlidingWindow A) :
  generateForSize width height dimOrder maxWindowSize p transforms
    overrideWidth overrideHeight io = Ok wins ->
  let wsX := windowSize maxWindowSize overrideWidth width in
  let wsY := windowSize maxWindowSize overrideHeight height in
  axisOffsets width wsX p = Ok xs ->
  axisOffsets height wsY p = Ok ys ->
  win ∈ wins <->
  exists a b t, a ∈ xs /\ b ∈ ys /\ t ∈ None :: transforms /\
                win = mkWindow a b wsX wsY dimOrder t.
Proof.
  intros Hgen wsX wsY Hxs Hys.
  apply generateForSize_inv in Hgen as (xs' & ys' & dims & Hx' & Hy' & Hd & ->).
  fold wsX in Hx'. fold wsY in Hy'.
  rewrite Hxs in Hx'. rewrite Hys in Hy'.
  injection Hx' as <-. injection Hy' as <-.
  rewrite list_elem_of_fmap. split.
  - intros ([[a b] t] & -> & Hin).
    apply (iterate_dims_elem_of _ _ _ _ _ _ _ _ Hd) in Hin.
    exists a, b, t. tauto.
  - intros (a & b & t & Ha & Hb & Ht & ->).
    exists (a, b, t). split; [reflexivity |].
    apply (iterate_dims_elem_of _ _ _ _ _ _ _ _ Hd). auto.
Qed.

(** An overlap fraction in [[0, 1)] and a step of at least one pixel give
    a window of at least one pixel and a step no larger than the window. *)
Lemma stepSize_fraction (ws : Z) (p : Q) :
  (0 <= p)%Q -> (p < 1)%Q -> 1 <= stepSize ws p ->
  1 <= stepSize ws p <= ws.
Proof.
  intros Hp0 Hp1 Hs. unfold stepSize, floor_mul in *.
  assert (Hws : 1 <= ws).
  { destruct (Z_lt_le_dec 0 ws) as [| Hneg]; [lia | exfalso].
    assert (Hle : (inject_Z ws <= inject_Z ws * p)%Q).
    { destruct p as [n d]. unfold Qle, Qlt in *. simpl in *. nia. }
    apply Qfloor_resp_le in Hle. rewrite Qfloor_Z in Hle. lia. }
  split; [assumption |].
  assert (Hle : (inject_Z 0 <= inject_Z ws * p)%Q).
  { destruct p as [n d]. unfold Qle, Qlt in *. simpl in *. nia. }
  apply Qfloor_resp_le in Hle. rewrite Qfloor_Z in Hle. lia.
Qed.

(** Coverage and containment for a step between one pixel and the window
    size. *)
Lemma generateForSize_union {A : Type} (width height : Z) (dimOrder : list string)
    (maxWindowSize : Z) (p : Q) (transforms : list (option (A -> result A)))
    (overrideWidth overrideHeight : option Z) (io : list string)
    (wins : list (SlidingWindow A)) :
  let wsX := windowSize maxWindowSize overrideWidth width in
  let wsY := windowSize maxWindowSize overrideHeight height in
  1 <= stepSize wsX p <= wsX ->
  1 <= stepSize wsY p <= wsY ->
  generateForSize width height dimOrder maxWindowSize p transforms
    overrideWidth overrideHeight io = Ok wins ->
  forall i j,
    (0 <= i < width /\ 0 <= j < height) <->
    (exists win, win ∈ wins /\ contains win i j).
Proof.
  intros wsX wsY HsX HsY Hgen i j.
  assert (HwX : wsX <= width) by (unfold wsX, windowSize; lia).
  assert (HwY : wsY <= height) by (unfold wsY, windowSize; lia).
  pose proof (generateForSize_inv _ _ _ _ _ _ _ _ _ _ Hgen)
    as (xs & ys & dims & Hxs & Hys & _ & _).
  fold wsX in Hxs. fold wsY in Hys.
  pose proof (fun win => generateForSize_elem_of width height dimOrder
                maxWindowSize p transforms overrideWidth overrideHeight io
                wins xs ys win Hgen Hxs Hys) as Hmem.
  cbv zeta in Hmem. fold wsX wsY in Hmem.
  split.
  - intros [Hi Hj].
    destruct (axisOffsets_cover width wsX p xs i HsX HwX Hxs Hi) as (a & Ha & Hai).
    destruct (axisOffsets_cover height wsY p ys j HsY HwY Hys Hj) as (b & Hb & Hbj).
    exists (mkWindow a b wsX wsY dimOrder None). split.
    + apply Hmem. exists a, b, None. repeat split; try assumption.
      apply list_elem_of_here.
    + unfold contains. simpl. lia.
  - intros (win & Hin & Hc).
    apply Hmem in Hin as (a & b & t & Ha & Hb & _ & ->).
    unfold contains in Hc. simpl in Hc.
    pose proof (axisOffsets_bounds width wsX p xs a ltac:(lia) HwX Hxs Ha).
    pose proof (axisOffsets_bounds height wsY p ys b ltac:(lia) HwY Hys Hb).
    lia.
Qed.

(** C1.  For width >= 1, height >= 1, an overlap fraction (a rational in
    [0, 1)) and a window size such that the computed step is at least 1 on
    both axes, [generateForSize] returns windows whose rectangles have
    exactly [0,width) x [0,height) as their union: every pixel of the
    input lies in at least one window, and every pixel of a window is a
    pixel of the input. *)
Theorem C1_coverage {A : Type} (width height : Z) (dimOrder : list string)
    (maxWindowSize : Z) (overlapPercent : Q)
    (transforms : list (option (A -> result A)))
    (overrideWidth overrideHeight : option Z) (iterorder : list string) :
  1 <= width -> 1 <= height ->
  (0 <= overlapPercent)%Q -> (overlapPercent < 1)%Q ->
  1 <= stepSize (windowSize maxWindowSize overrideWidth width) overlapPercent ->
  1 <= stepSize (windowSize maxWindowSize overrideHeight height) overlapPercent ->
  supported_iterorder iterorder ->
  exists wins,
    generateForSize width height dimOrder maxWindowSize overlapPercent
      transforms overrideWidth overrideHeight iterorder = Ok wins /\
    forall i j,
      (0 <= i < width /\ 0 <= j < height) <->
      (exists win, win ∈ wins /\ contains win i j).
Proof.
  intros _ _ Hp0 Hp1 HsX HsY Hio.
  pose proof (stepSize_fraction _ _ Hp0 Hp1 HsX) as HX.
  pose proof (stepSize_fraction _ _ Hp0 Hp1 HsY) as HY.
  destruct (generateForSize_ok width height dimOrder maxWindowSize
              overlapPercent transforms overrideWidth overrideHeight iterorder)
    as [wins Hgen]; [lia | lia | assumption |].
  exists wins. split; [assumption |].
  exact (generateForSize_union _ _ _ _ _ _ _ _ _ _ HX HY Hgen).
Qed.

Lemma C1_coverage_witness :
  exists wins,
    generateForSize (A:=Z) 10 7 DimOrder.HeightWidthChannel 4 (1 # 2) []
      None None IterOrder.TransformWidthHeight = Ok wins /\
    forall i j,
      (0 <= i < 10 /\ 0 <= j < 7) <->
      (exists win, win ∈ wins /\ contains win i j).
Proof.
  apply (C1_coverage (A:=Z) 10 7 DimOrder.HeightWidthChannel 4 (1 # 2) []
           None None IterOrder.TransformWidthHeight); by_computation.
Defined.

(** Outside [0, 1) the code still runs, and the step can exceed the
    window: with overlap -1 and 2-pixel windows over 10 pixels the
    offsets are 0, 4, 8 and pixel (2, 0) lies in no window. *)
Lemma negative_overlap_leaves_gaps :
  exists wins,
    generateForSize (A:=Z) 10 10 DimOrder.HeightWidthChannel 2 (-1) []
      None None IterOrder.TransformWidthHeight = Ok wins /\
    map x wins = [0; 4; 8; 0; 4; 8; 0; 4; 8] /\
    ~ (exists win, win ∈ wins /\ contains win 2 0).
Proof.
  eexists. split; [vm_compute; reflexivity |]. split; [reflexivity |].
  intros (win & Hin & [Hx _]).
  repeat (apply elem_of_cons in Hin as [-> | Hin]; [simpl in Hx; lia |]).
  inversion Hin.
Qed.

(** C2.  For width >= 1, height >= 1, a window size of at least 1 after
    clipping and a step of at least 1, every window that [generateForSize]
    returns has w > 0, h > 0, x >= 0, y >= 0, x + w <= width and
    y + h <= height; and for a supported iteration order windows are
    returned. *)
Theorem C2_windows_in_bounds {A : Type} (width height : Z) (dimOrder : list string)
    (maxWindowSize : Z) (overlapPercent : Q)
    (transforms : list (option (A -> result A)))
    (overrideWidth overrideHeight : option Z) (iterorder : list string) :
  1 <= width -> 1 <= height ->
  1 <= windowSize maxWindowSize overrideWidth width ->
  1 <= windowSize maxWindowSize overrideHeight height ->
  1 <= stepSize (windowSize maxWindowSize overrideWidth width) overlapPercent ->
  1 <= stepSize (windowSize maxWindowSize overrideHeight height) overlapPercent ->
  (supported_iterorder iterorder ->
   exists wins,
     generateForSize width height dimOrder maxWindowSize overlapPercent
       transforms overrideWidth overrideHeight iterorder = Ok wins) /\
  (forall wins win,
     generateForSize width height dimOrder maxWindowSize overlapPercent
       transforms overrideWidth overrideHeight iterorder = Ok wins ->
     win ∈ wins -> window_ok width height win).
Proof.
  intros _ _ HwX HwY HsX HsY. split.
  - intros Hio. apply generateForSize_ok; [lia | lia | assumption].
  - intros wins win Hgen Hin.
    pose proof (generateForSize_inv _ _ _ _ _ _ _ _ _ _ Hgen)
      as (xs & ys & dims & Hxs & Hys & _ & _).
    pose proof (generateForSize_elem_of width height dimOrder maxWindowSize
                  overlapPercent transforms overrideWidth overrideHeight
                  iterorder wins xs ys win Hgen Hxs Hys) as Hmem.
    cbv zeta in Hmem.
    destruct (proj1 Hmem Hin) as (a & b & t & Ha & Hb & _ & ->).
    set (wsX := windowSize maxWindowSize overrideWidth width) in *.
    set (wsY := windowSize maxWindowSize overrideHeight height) in *.
    assert (wsX <= width) by (unfold wsX, windowSize; lia).
    assert (wsY <= height) by (unfold wsY, windowSize; lia).
    pose proof (axisOffsets_bounds width wsX _ xs a HsX ltac:(lia) Hxs Ha).
    pose proof (axisOffsets_bounds height wsY _ ys b HsY ltac:(lia) Hys Hb).
    unfold window_ok. simpl. lia.
Qed.

Lemma C2_windows_in_bounds_witness :
  (supported_iterorder IterOrder.TransformHeightWidth ->
   exists wins,
     generateForSize (A:=Z) 10 7 DimOrder.ChannelHeightWidth 4 (3 # 4) []
       None (Some 3) IterOrder.TransformHeightWidth = Ok wins) /\
  (forall wins win,
     generateForSize (A:=Z) 10 7 DimOrder.ChannelHeightWidth 4 (3 # 4) []
       None (Some 3) IterOrder.TransformHeightWidth = Ok wins ->
     win ∈ wins -> window_ok 10 7 win).
Proof.
  apply (C2_windows_in_bounds (A:=Z) 10 7 DimOrder.ChannelHeightWidth 4 (3 # 4) []
           None (Some 3) IterOrder.TransformHeightWidth); by_computation.
Defined.

(** ** Position of an element in a nested loop *)

Lemma flat_map_uniform_length {X Y : Type} (f : X -> list Y) (n : nat) (l : list X) :
  (forall a, length (f a) = n) -> length (flat_map f l) = (length l * n)%nat.
Proof.
  intros Hf. induction l as [| a l IH]; simpl; [reflexivity |].
  rewrite length_app, Hf, IH. lia.
Qed.

(** When every block has [n] elements, element [j] of block [i] sits at
    position [i * n + j]. *)
Lemma lookup_flat_map_uniform {X Y : Type} (f : X -> list Y) (n : nat)
    (l : list X) (i j : nat) (a : X) :
  (forall a, length (f a) = n) ->
  l !! i = Some a -> (j < n)%nat ->
  flat_map f l !! (i * n + j)%nat = f a !! j.
Proof.
  intros Hf. revert i. induction l as [| b l IH]; intros i Hi Hj.
  - discriminate.
  - destruct i as [| i]; simpl in *.
    + injection Hi as ->. apply lookup_app_l. rewrite Hf. assumption.
    + rewrite lookup_app_r by (rewrite Hf; lia).
      rewrite Hf. replace (n + i * n + j - n)%nat with (i * n + j)%nat by lia.
      apply IH; assumption.
Qed.

Lemma iterate_dims_lookup_x_outer {T : Type} (xs ys : list Z) (ts : list T)
    (ix iy it : nat) (a b : Z) (t : T) :
  xs !! ix = Some a -> ys !! iy = Some b -> ts !! it = Some t ->
  exists dims,
    iterate_dims xs ys ts IterOrder.TransformHeightWidth = Ok dims /\
    dims !! ((ix * length ys + iy) * length ts + it)%nat = Some (a, b, t).
Proof.
  intros Ha Hb Ht. unfold iterate_dims. simpl. eexists. split; [reflexivity |].
  pose proof (lookup_lt_Some _ _ _ Hb) as Hiy.
  pose proof (lookup_lt_Some _ _ _ Ht) as Hit.
  set (inner := fun (u : Z) (v : Z) => map (fun t0 : T => (u, v, t0)) ts).
  assert (Hinner : forall u v, length (inner u v) = length ts)
    by (intros; apply length_map).
  replace ((ix * length ys + iy) * length ts + it)%nat
    with (ix * (length ys * length ts) + (iy * length ts + it))%nat by lia.
  change (flat_map (fun u => flat_map (inner u) ys) xs
            !! (ix * (length ys * length ts) + (iy * length ts + it))%nat
          = Some (a, b, t)).
  rewrite (lookup_flat_map_uniform (fun u => flat_map (inner u) ys)
             (length ys * length ts) xs ix _ a);
    [| intros u; apply (flat_map_uniform_length (inner u)), (Hinner u)
     | assumption | nia].
  rewrite (lookup_flat_map_uniform (inner a) (length ts) ys iy it b (Hinner a) Hb Hit).
  unfold inner. rewrite list_lookup_fmap, Ht. reflexivity.
Qed.

Lemma iterate_dims_lookup_y_outer {T : Type} (xs ys : list Z) (ts : list T)
    (ix iy it : nat) (a b : Z) (t : T) :
  xs !! ix = Some a -> ys !! iy = Some b -> ts !! it = Some t ->
  exists dims,
    iterate_dims xs ys ts IterOrder.TransformWidthHeight = Ok dims /\
    dims !! ((iy * length xs + ix) * length ts + it)%nat = Some (a, b, t).
Proof.
  intros Ha Hb Ht. unfold iterate_dims. simpl. eexists. split; [reflexivity |].
  pose proof (lookup_lt_Some _ _ _ Ha) as Hix.
  pose proof (lookup_lt_Some _ _ _ Ht) as Hit.
  set (inner := fun (v : Z) (u : Z) => map (fun t0 : T => (u, v, t0)) ts).
  assert (Hinner : forall v u, length (inner v u) = length ts)
    by (intros; apply length_map).
  replace ((iy * length xs + ix) * length ts + it)%nat
    with (iy * (length xs * length ts) + (ix * length ts + it))%nat by lia.
  change (flat_map (fun v => flat_map (inner v) xs) ys
            !! (iy * (length xs * length ts) + (ix * length ts + it))%nat
          = Some (a, b, t)).
  rewrite (lookup_flat_map_uniform (fun v => flat_map (inner v) xs)
             (length xs * length ts) ys iy _ b);
    [| intros v; apply (flat_map_uniform_length (inner v)), (Hinner v)
     | assumption | nia].
  rewrite (lookup_flat_map_uniform (inner b) (length ts) xs ix it a (Hinner b) Ha Hit).
  unfold inner. rewrite list_lookup_fmap, Ht. reflexivity.
Qed.

(** C3.  Iteration order.  With [nx], [ny] offsets and the transform list
    [None :: transforms] of length [nt], the window built from the
    [ix]-th X-offset, the [iy]-th Y-offset and the [it]-th transform is
    at position [(ix * ny + iy) * nt + it] under
    [IterOrder.TransformHeightWidth] (x slowest, then y, transform
    fastest) and at position [(iy * nx + ix) * nt + it] under
    [IterOrder.TransformWidthHeight] (y slowest, then x, transform
    fastest); transforms come in list order after the identity entry
    [None].  For X-offsets [0, 5], Y-offsets [0, 5] and transforms [t1]
    the two orders give the sequences of the example. *)
Theorem C3_iteration_order {A : Type} :
  (forall (width height : Z) (dimOrder : list string) (maxWindowSize : Z)
          (overlapPercent : Q) (transforms : list (option (A -> result A)))
          (overrideWidth overrideHeight : option Z)
          (xs ys : list Z) (ix iy it : nat) (a b : Z)
          (t : option (A -> result A)),
     let wsX := windowSize maxWindowSize overrideWidth width in
     let wsY := windowSize maxWindowSize overrideHeight height in
     let nt := length (None :: transforms) in
     axisOffsets width wsX overlapPercent = Ok xs ->
     axisOffsets height wsY overlapPercent = Ok ys ->
     xs !! ix = Some a -> ys !! iy = Some b ->
     (None :: transforms) !! it = Some t ->
     (exists wins,
        generateForSize width height dimOrder maxWindowSize overlapPercent
          transforms overrideWidth overrideHeight
          IterOrder.TransformHeightWidth = Ok wins /\
        wins !! ((ix * length ys + iy) * nt + it)%nat =
          Some (mkWindow a b wsX wsY dimOrder t)) /\
     (exists wins,
        generateForSize width height dimOrder maxWindowSize overlapPercent
          transforms overrideWidth overrideHeight
          IterOrder.TransformWidthHeight = Ok wins /\
        wins !! ((iy * length xs + ix) * nt + it)%nat =
          Some (mkWindow a b wsX wsY dimOrder t))) /\
  (forall t1 : A -> result A,
     iterate_dims [0; 5] [0; 5] [None; Some t1] IterOrder.TransformHeightWidth =
       Ok [ (0, 0, None); (0, 0, Some t1); (0, 5, None); (0, 5, Some t1);
            (5, 0, None); (5, 0, Some t1); (5, 5, None); (5, 5, Some t1) ] /\
     iterate_dims [0; 5] [0; 5] [None; Some t1] IterOrder.TransformWidthHeight =
       Ok [ (0, 0, None); (0, 0, Some t1); (5, 0, None); (5, 0, Some t1);
            (0, 5, None); (0, 5, Some t1); (5, 5, None); (5, 5, Some t1) ]) /\
  (forall (t1 : A -> result A) (d : list string),
     generateForSize 10 10 d 5 0 [Some t1] None None
       IterOrder.TransformHeightWidth =
       Ok [ mkWindow 0 0 5 5 d None; mkWindow 0 0 5 5 d (Some t1);
            mkWindow 0 5 5 5 d None; mkWindow 0 5 5 5 d (Some t1);
            mkWindow 5 0 5 5 d None; mkWindow 5 0 5 5 d (Some t1);
            mkWindow 5 5 5 5 d None; mkWindow 5 5 5 5 d (Some t1) ] /\
     generateForSize 10 10 d 5 0 [Some t1] None None
       IterOrder.TransformWidthHeight =
       Ok [ mkWindow 0 0 5 5 d None; mkWindow 0 0 5 5 d (Some t1);
            mkWindow 5 0 5 5 d None; mkWindow 5 0 5 5 d (Some t1);
            mkWindow 0 5 5 5 d None; mkWindow 0 5 5 5 d (Some t1);
            mkWindow 5 5 5 5 d None; mkWindow 5 5 5 5 d (Some t1) ]).
Proof.
  split; [| split; [intros t1; split; reflexivity
                   | intros t1 d; split; reflexivity]].
  intros width height dimOrder maxWindowSize p transforms ow oh
         xs ys ix iy it a b t wsX wsY nt Hxs Hys Ha Hb Ht.
  split.
  - destruct (iterate_dims_lookup_x_outer xs ys _ ix iy it a b t Ha Hb Ht)
      as (dims & Hd & Hlook).
    rewrite generateForSize_eq. cbv zeta. fold wsX wsY.
    rewrite Hxs, Hys. cbn [bind]. rewrite Hd. cbn [bind].
    eexists. split; [reflexivity |].
    rewrite list_lookup_fmap. fold nt in Hlook. rewrite Hlook. reflexivity.
  - destruct (iterate_dims_lookup_y_outer xs ys _ ix iy it a b t Ha Hb Ht)
      as (dims & Hd & Hlook).
    rewrite generateForSize_eq. cbv zeta. fold wsX wsY.
    rewrite Hxs, Hys. cbn [bind]. rewrite Hd. cbn [bind].
    eexists. split; [reflexivity |].
    rewrite list_lookup_fmap. fold nt in Hlook. rewrite Hlook. reflexivity.
Qed.

Lemma C3_iteration_order_witness :
  (exists wins,
     generateForSize (A:=Z) 12 9 DimOrder.HeightWidthChannel 4 0
       [Some (fun v => Ok (v + 1))] None None
       IterOrder.TransformHeightWidth = Ok wins /\
     x <$> wins !! ((2 * 3 + 1) * 2 + 0)%nat = Some 8 /\
     y <$> wins !! ((2 * 3 + 1) * 2 + 0)%nat = Some 4) /\
  (exists wins,
     generateForSize (A:=Z) 12 9 DimOrder.HeightWidthChannel 4 0
       [Some (fun v => Ok (v + 1))] None None
       IterOrder.TransformWidthHeight = Ok wins /\
     x <$> wins !! ((1 * 3 + 2) * 2 + 0)%nat = Some 8 /\
     y <$> wins !! ((1 * 3 + 2) * 2 + 0)%nat = Some 4).
Proof.
  destruct (proj1 (C3_iteration_order (A:=Z)) 12 9 DimOrder.HeightWidthChannel
              4 0%Q [Some (fun v => Ok (v + 1))] None None
              [0; 4; 8] [0; 4; 5] 2%nat 1%nat 0%nat 8 4 None
              eq_refl eq_refl eq_refl eq_refl eq_refl)
    as [(w1 & Hg1 & Hl1) (w2 & Hg2 & Hl2)].
  split.
  - exists w1. split; [exact Hg1 |]. change (length [0; 4; 5]) with 3%nat in Hl1.
    change (length [None; Some (fun v : Z => Ok (v + 1))]) with 2%nat in Hl1.
    rewrite Hl1. split; reflexivity.
  - exists w2. split; [exact Hg2 |]. change (length [0; 4; 8]) with 3%nat in Hl2.
    change (length [None; Some (fun v : Z => Ok (v + 1))]) with 2%nat in Hl2.
    rewrite Hl2. split; reflexivity.
Defined.

(** ** Overlap of neighbouring windows *)





(** ** Float arithmetic *)










(** The floor is taken of the rounded product: for a window of 10 and
    the float nearest to 0.7 the product is the float 7.0 and the overlap
    is 7, while the exact product of the two numbers is below 7. *)
Lemma windowOverlap_rounds :
  windowOverlap 10 (double 6305039478318694 (-53)) = Ok 7 /\
  float_value (double 6305039478318694 (-53)) =
    Some (6305039478318694 # 9007199254740992) /\
  floor_mul 10 (6305039478318694 # 9007199254740992) = 6.
Proof. repeat split; vm_compute; reflexivity. Qed.

(** The overlap computation is the only place where the overlap fraction
    enters: once both overlaps are known, the layout is determined by the
    two steps. *)
Lemma generateForSize_float_steps {A : Type} (width height : Z)
    (dimOrder : list string) (maxWindowSize : Z) (p : spec_float)
    (transforms : list (option (A -> result A)))
    (overrideWidth overrideHeight : option Z) (io : list string)
    (ovX ovY : Z) :
  let wsX := windowSize maxWindowSize overrideWidth width in
  let wsY := windowSize maxWindowSize overrideHeight height in
  windowOverlap wsX p = Ok ovX -> windowOverlap wsY p = Ok ovY ->
  generateForSize_float width height dimOrder maxWindowSize p transforms
    overrideWidth overrideHeight io =
  let! xOffsets := axisOffsetsStep width wsX (wsX - ovX) in
  let! yOffsets := axisOffsetsStep height wsY (wsY - ovY) in
  let! dims := iterate_dims xOffsets yOffsets (None :: transforms) io in
  Ok (map (fun '(xOffset, yOffset, transform) =>
             mkWindow xOffset yOffset wsX wsY dimOrder transform) dims).
Proof.
  intros wsX wsY HX HY. unfold generateForSize_float. cbv zeta.
  fold (windowSize maxWindowSize overrideWidth width).
  fold (windowSize maxWindowSize overrideHeight height). fold wsX wsY.
  rewrite HX. cbn [bind]. rewrite HY. cbn [bind]. unfold axisOffsetsStep.
  repeat match goal with
         | |- context [py_range ?a ?b ?c] => destruct (py_range a b c); cbn [bind]
         end; reflexivity.
Qed.

(** A float call and a call with an exact overlap fraction that lead to
    the same two overlaps return the same. *)
Lemma generateForSize_float_exact {A : Type} (width height : Z)
    (dimOrder : list string) (maxWindowSize : Z) (p : spec_float) (q : Q)
    (transforms : list (option (A -> result A)))
    (overrideWidth overrideHeight : option Z) (io : list string) :
  let wsX := windowSize maxWindowSize overrideWidth width in
  let wsY := windowSize maxWindowSize overrideHeight height in
  windowOverlap wsX p = Ok (floor_mul wsX q) ->
  windowOverlap wsY p = Ok (floor_mul wsY q) ->
  generateForSize_float width height dimOrder maxWindowSize p transforms
    overrideWidth overrideHeight io =
  generateForSize width height dimOrder maxWindowSize q transforms
    overrideWidth overrideHeight io.
Proof.
  intros wsX wsY HX HY.
  rewrite (generateForSize_float_steps _ _ _ _ _ _ _ _ _ _ _ HX HY).
  rewrite generateForSize_eq. reflexivity.
Qed.



(** ** The window view *)

(** A slice with bounds inside the axis selects the half-open interval
    between them. *)
Lemma slice_indices_half_open (lo hi n i : Z) :
  0 <= lo -> lo <= hi -> hi <= n ->
  i ∈ slice_indices (mkSlice (Some lo) (Some hi)) n <-> lo <= i < hi.
Proof.
  intros H0 Hle Hn. unfold slice_indices, adjust_index. cbn [start stop].
  destruct (Z.ltb_spec lo 0); [lia |].
  destruct (Z.ltb_spec hi 0); [lia |].
  assert (Elo : (if n <=? lo then n else lo) = lo)
    by (destruct (Z.leb_spec n lo); lia).
  assert (Ehi : (if n <=? hi then n else hi) = hi)
    by (destruct (Z.leb_spec n hi); lia).
  rewrite Elo, Ehi.
  destruct (py_range_ok lo hi 1 ltac:(lia)) as [l Hl]. rewrite Hl.
  rewrite (py_range_elem_of lo hi 1 l i ltac:(lia) Hl).
  split.
  - intros (k & Hk & Hlt & ->). lia.
  - intros Hi. exists (i - lo). lia.
Qed.

Lemma slice_indices_full (n i : Z) :
  0 <= n -> i ∈ slice_indices (mkSlice None None) n <-> 0 <= i < n.
Proof.
  intros Hn. unfold slice_indices. cbn [start stop].
  destruct (py_range_ok 0 n 1 ltac:(lia)) as [l Hl]. rewrite Hl.
  rewrite (py_range_elem_of 0 n 1 l i ltac:(lia) Hl).
  split.
  - intros (k & Hk & Hlt & ->). lia.
  - intros Hi. exists i. lia.
Qed.

(** C5.  [indices] of a channel-first window is [full, rows y..y+h,
    columns x..x+w] with [includeChannel] true and [rows, columns] with it
    false; of a channel-last window it is [rows, columns] whatever
    [includeChannel] is.  Each range is half-open: on an axis that
    contains it, it selects the positions from its start up to but not
    including start + extent. *)
Theorem C5_indices {A : Type} (win : SlidingWindow A) :
  let rows := mkSlice (Some (y win)) (Some (y win + h win)) in
  let cols := mkSlice (Some (x win)) (Some (x win + w win)) in
  (dimOrder win = DimOrder.ChannelHeightWidth ->
   indices win true = Ok [mkSlice None None; rows; cols] /\
   indices win false = Ok [rows; cols]) /\
  (dimOrder win = DimOrder.HeightWidthChannel ->
   forall includeChannel, indices win includeChannel = Ok [rows; cols]) /\
  (forall n i, 0 <= y win -> 0 <= h win -> y win + h win <= n ->
     i ∈ slice_indices rows n <-> y win <= i < y win + h win) /\
  (forall n i, 0 <= x win -> 0 <= w win -> x win + w win <= n ->
     i ∈ slice_indices cols n <-> x win <= i < x win + w win) /\
  (forall n i, 0 <= n -> i ∈ slice_indices (mkSlice None None) n <-> 0 <= i < n).
Proof.
  intros rows cols. split; [| split; [| split; [| split]]].
  - intros Hd. unfold indices. rewrite Hd. split; reflexivity.
  - intros Hd b. unfold indices. rewrite Hd. reflexivity.
  - intros n i Hy Hh Hn. apply slice_indices_half_open; lia.
  - intros n i Hx Hw Hn. apply slice_indices_half_open; lia.
  - intros n i Hn. apply slice_indices_full; lia.
Qed.

Lemma C5_indices_witness :
  indices (mkWindow (A:=Z) 2 3 4 5 DimOrder.ChannelHeightWidth None) true =
    Ok [mkSlice None None; mkSlice (Some 3) (Some 8); mkSlice (Some 2) (Some 6)] /\
  indices (mkWindow (A:=Z) 2 3 4 5 DimOrder.ChannelHeightWidth None) false =
    Ok [mkSlice (Some 3) (Some 8); mkSlice (Some 2) (Some 6)].
Proof.
  exact (proj1 (C5_indices (mkWindow (A:=Z) 2 3 4 5 DimOrder.ChannelHeightWidth None))
           eq_refl).
Defined.

(** C6.  [apply] slices the array with [indices(includeChannel=True)];
    without a transform it returns the view as it is, with a transform
    [f] it returns [f view], whatever that is (a failure of [f]
    included); a failure of [indices] or of the slicing is passed on
    unchanged. *)
Theorem C6_apply {A : Type} (getitem : A -> list slice -> result A)
    (win : SlidingWindow A) (matrix : A) :
  (forall idx view,
     indices win true = Ok idx -> getitem matrix idx = Ok view ->
     (transform win = None -> apply getitem win matrix = Ok view) /\
     (forall f, transform win = Some f -> apply getitem win matrix = f view)) /\
  (forall idx e,
     indices win true = Ok idx -> getitem matrix idx = Raise e ->
     apply getitem win matrix = Raise e) /\
  (forall e, indices win true = Raise e -> apply getitem win matrix = Raise e).
Proof.
  unfold apply. split; [| split].
  - intros idx view Hi Hg. rewrite Hi. cbn [bind]. rewrite Hg. cbn [bind].
    split.
    + intros ->. reflexivity.
    + intros f ->. reflexivity.
  - intros idx e Hi Hg. rewrite Hi. cbn [bind]. rewrite Hg. reflexivity.
  - intros e Hi. rewrite Hi. reflexivity.
Qed.

Lemma C6_apply_witness :
  apply getitem2d
    (mkWindow 1 0 2 2 DimOrder.HeightWidthChannel None)
    [[1; 2; 3]; [4; 5; 6]; [7; 8; 9]] = Ok [[2; 3]; [5; 6]] /\
  apply getitem2d
    (mkWindow 1 0 2 2 DimOrder.HeightWidthChannel
       (Some (fun v => Ok (map (map Z.opp) v))))
    [[1; 2; 3]; [4; 5; 6]; [7; 8; 9]] = Ok [[-2; -3]; [-5; -6]].
Proof.
  split.
  - exact (proj1 (proj1 (C6_apply getitem2d
             (mkWindow 1 0 2 2 DimOrder.HeightWidthChannel None)
             [[1; 2; 3]; [4; 5; 6]; [7; 8; 9]])
             [mkSlice (Some 0) (Some 2); mkSlice (Some 1) (Some 3)]
             [[2; 3]; [5; 6]] eq_refl eq_refl) eq_refl).
  - exact (proj2 (proj1 (C6_apply getitem2d
             (mkWindow 1 0 2 2 DimOrder.HeightWidthChannel
                (Some (fun v => Ok (map (map Z.opp) v))))
             [[1; 2; 3]; [4; 5; 6]; [7; 8; 9]])
             [mkSlice (Some 0) (Some 2); mkSlice (Some 1) (Some 3)]
             [[2; 3]; [5; 6]] eq_refl eq_refl) _ eq_refl).
Defined.

(** ** Failures *)

Lemma floor_mul_zero (p : Q) : floor_mul 0 p = 0.
Proof.
  unfold floor_mul. destruct p as [n d]. unfold Qfloor. simpl.
  apply Z.div_0_l. discriminate.
Qed.

Lemma stepSize_zero (p : Q) : stepSize 0 p = 0.
Proof. unfold stepSize. rewrite floor_mul_zero. reflexivity. Qed.


Lemma iterate_dims_unsupported {T : Type} (xs ys : list Z) (ts : list T)
    (io : list string) :
  ~ supported_iterorder io ->
  iterate_dims xs ys ts io = Raise (NameError "Error").
Proof.
  unfold supported_iterorder, iterate_dims. intros Hio.
  repeat case_decide; tauto.
Qed.

Lemma indices_unsupported {A : Type} (win : SlidingWindow A) (includeChannel : bool) :
  ~ supported_dimorder (dimOrder win) ->
  indices win includeChannel = Raise (NameError "Error").
Proof.
  unfold supported_dimorder, indices. intros Hd.
  repeat case_decide; tauto.
Qed.

Lemma axisOffsetsStep_zero (extent ws : Z) :
  axisOffsetsStep extent ws 0 =
  Raise (ValueError "range() arg 3 must not be zero").
Proof. unfold axisOffsetsStep. rewrite py_range_zero_step. reflexivity. Qed.

Lemma axisOffsetsStep_ok (extent ws step : Z) :
  step <> 0 ->
  exists r, py_range 0 (extent - ws + 1) step = Ok r /\
            axisOffsetsStep extent ws step = Ok (append_last r (extent - ws)).
Proof.
  intros Hs. destruct (py_range_ok 0 (extent - ws + 1) _ Hs) as [r Hr].
  exists r. unfold axisOffsetsStep. rewrite Hr. auto.
Qed.

(** What [generateForSize_float] returns once the two overlaps are
    computed. *)
Lemma generateForSize_float_outcome {A : Type} (width height : Z)
    (dimOrder : list string) (maxWindowSize : Z) (p : spec_float)
    (transforms : list (option (A -> result A)))
    (overrideWidth overrideHeight : option Z) (io : list string)
    (ovX ovY : Z) :
  let wsX := windowSize maxWindowSize overrideWidth width in
  let wsY := windowSize maxWindowSize overrideHeight height in
  let out := generateForSize_float width height dimOrder maxWindowSize p
               transforms overrideWidth overrideHeight io in
  windowOverlap wsX p = Ok ovX -> windowOverlap wsY p = Ok ovY ->
  (wsX - ovX = 0 \/ wsY - ovY = 0 ->
     out = Raise (ValueError "range() arg 3 must not be zero")) /\
  (wsX - ovX <> 0 -> wsY - ovY <> 0 -> ~ supported_iterorder io ->
     out = Raise (NameError "Error")) /\
  (wsX - ovX <> 0 -> wsY - ovY <> 0 -> supported_iterorder io ->
     exists wins, out = Ok wins).
Proof.
  intros wsX wsY out HX HY. unfold out.
  rewrite (generateForSize_float_steps _ _ _ _ _ _ _ _ _ _ _ HX HY).
  cbv zeta. fold wsX wsY.
  split; [| split].
  - intros Hz.
    destruct (Z.eq_dec (wsX - ovX) 0) as [-> | Hx].
    + rewrite axisOffsetsStep_zero. reflexivity.
    + destruct Hz as [Hz | ->]; [contradiction |].
      destruct (axisOffsetsStep_ok width wsX _ Hx) as (rx & _ & ->).
      cbn [bind]. rewrite axisOffsetsStep_zero. reflexivity.
  - intros Hx Hy Hio.
    destruct (axisOffsetsStep_ok width wsX _ Hx) as (rx & _ & ->).
    destruct (axisOffsetsStep_ok height wsY _ Hy) as (ry & _ & ->).
    cbn [bind]. rewrite iterate_dims_unsupported by assumption. reflexivity.
  - intros Hx Hy Hio.
    destruct (axisOffsetsStep_ok width wsX _ Hx) as (rx & _ & ->).
    destruct (axisOffsetsStep_ok height wsY _ Hy) as (ry & _ & ->).
    cbn [bind].
    destruct (iterate_dims_ok (append_last rx (width - wsX))
                (append_last ry (height - wsY)) (None :: transforms) io Hio)
      as [dims ->].
    cbn [bind]. eauto.
Qed.

(** Calls that fail in the overlap computation: a window size of 10^309
    has no float; with an infinite overlap fraction the product is
    infinite; with a NaN it is a NaN. *)
Lemma generateForSize_float_overlap_errors :
  generateForSize_float (A:=Z) (10 ^ 310) 5 DimOrder.HeightWidthChannel
    (10 ^ 309) (double 1 (-1)) [] None None IterOrder.TransformWidthHeight =
    Raise (OverflowError "int too large to convert to float") /\
  generateForSize_float (A:=Z) 5 5 DimOrder.HeightWidthChannel
    3 (S754_infinity false) [] None None IterOrder.TransformWidthHeight =
    Raise (OverflowError "cannot convert float infinity to integer") /\
  generateForSize_float (A:=Z) 5 5 DimOrder.HeightWidthChannel
    3 S754_nan [] None None IterOrder.TransformWidthHeight =
    Raise (ValueError "cannot convert float NaN to integer").
Proof. repeat split; vm_compute; reflexivity. Qed.

(** Calls that no check stops: with the float 0.0 as overlap fraction, a
    width of -5 gives two windows of width -5, and a requested window
    size of -3 gives a window of size -3 at offset 8. *)
Lemma generateForSize_float_unchecked :
  generateForSize_float (A:=Z) (-5) 5 DimOrder.HeightWidthChannel 3
    (S754_zero false) [] None None IterOrder.TransformWidthHeight =
    Ok [ mkWindow 0 0 (-5) 3 DimOrder.HeightWidthChannel None;
         mkWindow 0 2 (-5) 3 DimOrder.HeightWidthChannel None ] /\
  generateForSize_float (A:=Z) 5 5 DimOrder.HeightWidthChannel (-3)
    (S754_zero false) [] None None IterOrder.TransformWidthHeight =
    Ok [ mkWindow 8 8 (-3) (-3) DimOrder.HeightWidthChannel None ].
Proof. split; vm_compute; reflexivity. Qed.




(** C8.  On an order tag outside the enumeration both functions reach
    their [raise Error(...)] statement, and since the name [Error] is
    unbound the exception that comes out is [NameError]. *)
Theorem C8_unsupported_order_NameError :
  indices (mkWindow (A:=Z) 0 0 1 1 ["w"; "h"; "c"]%string None) true =
    Raise (NameError "Error") /\
  iterate_dims [0] [0] [@None (Z -> result Z)] ["x"; "y"; "t"]%string =
    Raise (NameError "Error").
Proof. split; reflexivity. Qed.

(** ** Layout by number of windows *)

(** [math.ceil] of a finite float is the least integer that is not below
    it: for the float [m * 2^e] with [e < 0], the integer [c] with
    [(c - 1) * 2^(-e) < m <= c * 2^(-e)]. *)
Lemma ceil_scaled_spec (m e : Z) :
  e < 0 -> (ceil_scaled m e - 1) * 2 ^ (- e) < m <= ceil_scaled m e * 2 ^ (- e).
Proof.
  intros He. unfold ceil_scaled, floor_scaled.
  destruct (Z.leb_spec 0 e); [lia |].
  assert (Hp : 0 < 2 ^ (- e)) by (apply Z.pow_pos_nonneg; lia).
  pose proof (Z.div_mod (- m) (2 ^ (- e)) ltac:(lia)) as Hdm.
  pose proof (Z.mod_pos_bound (- m) (2 ^ (- e)) Hp) as Hmod.
  nia.
Qed.

(** *** The float quotient of two integers below 2^53

    The quotient of two positive integers below 2^53 is computed with a
    grid finer than [1 / b], so rounding it never crosses an integer:
    its ceiling is the ceiling of the exact quotient. *)

Lemma digits2_pos_size (p : positive) : digits2_pos p = Pos.size p.
Proof. induction p; simpl; congruence. Qed.

Lemma digits2_pos_bounds (p : positive) :
  2 ^ (Z.pos (digits2_pos p) - 1) <= Z.pos p < 2 ^ Z.pos (digits2_pos p).
Proof.
  rewrite digits2_pos_size.
  pose proof (Pos.size_gt p) as Hgt. pose proof (Pos.size_le p) as Hle.
  apply Pos2Z.pos_lt_pos in Hgt. apply Pos2Z.pos_le_pos in Hle.
  rewrite Pos2Z.inj_pow in Hgt, Hle.
  split; [| exact Hgt].
  assert (E : 2 ^ Z.pos (Pos.size p) = 2 * 2 ^ (Z.pos (Pos.size p) - 1)).
  { rewrite <- Z.pow_succ_r by lia. f_equal. lia. }
  lia.
Qed.

Lemma Zdigits2_unique (q d : Z) :
  0 < d -> 2 ^ (d - 1) <= q < 2 ^ d -> Zdigits2 q = d.
Proof.
  intros Hd [Hlo Hhi].
  assert (Hq : 0 < q) by (pose proof (Z.pow_pos_nonneg 2 (d - 1)); lia).
  destruct q as [| p | p]; try lia. cbn [Zdigits2].
  pose proof (digits2_pos_bounds p) as [Blo Bhi].
  set (d' := Z.pos (digits2_pos p)) in *.
  assert (Hd' : 0 < d') by (unfold d'; lia).
  destruct (Z.lt_trichotomy d' d) as [Hlt | [E | Hgt]]; [exfalso | exact E | exfalso].
  - assert (2 ^ d' <= 2 ^ (d - 1)) by (apply Z.pow_le_mono_r; lia). lia.
  - assert (2 ^ d <= 2 ^ (d' - 1)) by (apply Z.pow_le_mono_r; lia). lia.
Qed.

Lemma digits2_pos_le_53 (p : positive) :
  Z.pos p < 2 ^ 53 -> 1 <= Z.pos (digits2_pos p) <= 53.
Proof.
  intros Hp. pose proof (digits2_pos_bounds p) as [Blo _].
  split; [lia |].
  destruct (Z_le_gt_dec (Z.pos (digits2_pos p)) 53) as [| Hgt]; [assumption |].
  assert (2 ^ 53 <= 2 ^ (Z.pos (digits2_pos p) - 1))
    by (apply Z.pow_le_mono_r; lia).
  lia.
Qed.

Lemma SFdiv_core_small (a b : positive) :
  Z.pos a < 2 ^ 53 -> Z.pos b < 2 ^ 53 ->
  let s := 53 + Z.pos (digits2_pos b) - Z.pos (digits2_pos a) in
  SFdiv_core_binary 53 1024 (Z.pos a) 0 (Z.pos b) 0 =
  (Z.pos a * 2 ^ s / Z.pos b, - s,
   new_location (Z.pos b) ((Z.pos a * 2 ^ s) mod Z.pos b)).
Proof.
  intros Ha Hb s.
  pose proof (digits2_pos_le_53 a Ha) as Hda.
  pose proof (digits2_pos_le_53 b Hb) as Hdb.
  unfold SFdiv_core_binary, fexp, emin. cbn [Zdigits2].
  set (d1 := Z.pos (digits2_pos a)) in *.
  set (d2 := Z.pos (digits2_pos b)) in *.
  replace (Z.min (Z.max (d1 + 0 - (d2 + 0) - 53) (3 - 1024 - 53)) (0 - 0))
    with (- s) by (unfold s; lia).
  replace (0 - 0 - - s) with s by lia.
  assert (Hs : 0 < s) by (unfold s; lia).
  destruct s as [| ps | ps] eqn:Es; try lia.
  rewrite Z.shiftl_mul_pow2 by lia.
  unfold Z.div, Z.modulo.
  destruct (Z.div_eucl (Z.pos a * 2 ^ Z.pos ps) (Z.pos b)) as [q r].
  reflexivity.
Qed.

Lemma loc_of_shr_record_of_loc (m : Z) (l : location) :
  loc_of_shr_record (shr_record_of_loc m l) = l /\
  shr_m (shr_record_of_loc m l) = m.
Proof. destruct l as [| []]; split; reflexivity. Qed.

Lemma round_nearest_even_bounds (m : Z) (l : location) :
  round_nearest_even m l = m \/ round_nearest_even m l = m + 1.
Proof.
  destruct l as [| []]; simpl; auto. destruct (Z.even m); auto.
Qed.

Lemma binary_round_aux_53 (q e : Z) (l : location) :
  2 ^ 52 <= q < 2 ^ 53 -> -1074 <= e <= 970 ->
  binary_round_aux 53 1024 false q e l =
  let m1 := round_nearest_even q l in
  if m1 =? 2 ^ 53 then S754_finite false (2 ^ 52)%positive (e + 1)
  else S754_finite false (Z.to_pos m1) e.
Proof.
  intros Hq He. unfold binary_round_aux, shr_fexp.
  rewrite (Zdigits2_unique q 53) by (change (53 - 1) with 52; lia).
  unfold fexp at 1, emin.
  replace (Z.max (53 + e - 53) (3 - 1024 - 53) - e) with 0 by lia.
  cbn [shr].
  destruct (loc_of_shr_record_of_loc q l) as [-> ->].
  cbv zeta.
  set (m1 := round_nearest_even q l).
  assert (Hm1 : 2 ^ 52 <= m1 <= 2 ^ 53)
    by (destruct (round_nearest_even_bounds q l) as [E | E]; fold m1 in E; lia).
  destruct (Z.eqb_spec m1 (2 ^ 53)) as [E | NE].
  - rewrite E. change (2 ^ 53) with 9007199254740992.
    change (Zdigits2 9007199254740992) with 54. unfold fexp, emin.
    replace (Z.max (54 + e - 53) (3 - 1024 - 53) - e) with 1 by lia.
    cbn [shr iter_pos shr_record_of_loc shr_1 shr_m orb].
    change (1024 - 53) with 971.
    destruct (Z.leb_spec (e + 1) 971); [reflexivity | lia].
  - rewrite (Zdigits2_unique m1 53) by (change (53 - 1) with 52; lia).
    unfold fexp, emin.
    replace (Z.max (53 + e - 53) (3 - 1024 - 53) - e) with 0 by lia.
    cbn [shr shr_record_of_loc shr_m].
    destruct m1 as [| pm | pm]; try lia.
    change (1024 - 53) with 971.
    destruct (Z.leb_spec e 971); [reflexivity | lia].
Qed.

Lemma shr_1_spec (q : Z) (r s : bool) :
  0 < q ->
  shr_1 (Build_shr_record q r s) = Build_shr_record (q / 2) (Z.odd q) (r || s).
Proof.
  intros Hq. destruct q as [| p | p]; try lia.
  destruct p as [p | p |]; cbn [shr_1 Z.odd].
  - replace (Z.pos p~1 / 2) with (Z.pos p)
      by (apply Z.div_unique with (r := 1); lia).
    reflexivity.
  - replace (Z.pos p~0 / 2) with (Z.pos p)
      by (apply Z.div_unique with (r := 0); lia).
    reflexivity.
  - reflexivity.
Qed.

Lemma shr_1_loc (q : Z) (l : location) :
  0 < q ->
  shr_1 (shr_record_of_loc q l) =
  Build_shr_record (q / 2) (Z.odd q) (inexact l).
Proof.
  intros Hq. destruct l as [| []]; cbn [shr_record_of_loc];
    rewrite shr_1_spec by assumption; reflexivity.
Qed.

Lemma binary_round_aux_54 (q e : Z) (l : location) :
  2 ^ 53 <= q < 2 ^ 54 -> -1075 <= e <= 969 ->
  binary_round_aux 53 1024 false q e l =
  let m1 := round_nearest_even (q / 2)
              (loc_of_shr_record
                 (Build_shr_record (q / 2) (Z.odd q) (inexact l))) in
  if m1 =? 2 ^ 53 then S754_finite false (2 ^ 52)%positive (e + 2)
  else S754_finite false (Z.to_pos m1) (e + 1).
Proof.
  intros Hq He. unfold binary_round_aux, shr_fexp.
  rewrite (Zdigits2_unique q 54) by (change (54 - 1) with 53; lia).
  unfold fexp at 1, emin.
  replace (Z.max (54 + e - 53) (3 - 1024 - 53) - e) with 1 by lia.
  cbn [shr iter_pos].
  rewrite shr_1_loc by lia.
  cbn [shr_m]. cbv zeta.
  set (l' := loc_of_shr_record _).
  set (m1 := round_nearest_even (q / 2) l').
  assert (Hh : 2 ^ 52 <= q / 2 < 2 ^ 53).
  { change (2 ^ 53) with (2 ^ 52 * 2) in Hq. change (2 ^ 54) with (2 ^ 53 * 2) in Hq.
    split; [apply Z.div_le_lower_bound; lia | apply Z.div_lt_upper_bound; lia]. }
  assert (Hm1 : 2 ^ 52 <= m1 <= 2 ^ 53)
    by (destruct (round_nearest_even_bounds (q / 2) l') as [E | E];
        fold m1 in E; lia).
  destruct (Z.eqb_spec m1 (2 ^ 53)) as [E | NE].
  - rewrite E. change (2 ^ 53) with 9007199254740992.
    change (Zdigits2 9007199254740992) with 54. unfold fexp, emin.
    replace (Z.max (54 + (e + 1) - 53) (3 - 1024 - 53) - (e + 1)) with 1 by lia.
    cbn [shr iter_pos shr_record_of_loc shr_1 shr_m orb].
    change (1024 - 53) with 971.
    replace (e + 1 + 1) with (e + 2) by lia.
    destruct (Z.leb_spec (e + 2) 971); [reflexivity | lia].
  - rewrite (Zdigits2_unique m1 53) by (change (53 - 1) with 52; lia).
    unfold fexp, emin.
    replace (Z.max (53 + (e + 1) - 53) (3 - 1024 - 53) - (e + 1)) with 0 by lia.
    cbn [shr shr_record_of_loc shr_m].
    destruct m1 as [| pm | pm]; try lia.
    change (1024 - 53) with 971.
    destruct (Z.leb_spec (e + 1) 971); [reflexivity | lia].
Qed.

Lemma new_location_exact (b r : Z) : inexact (new_location b r) = false <-> r = 0.
Proof.
  unfold new_location, new_location_even, new_location_odd.
  destruct (Z.even b); destruct (Z.eqb_spec r 0); simpl; split;
    solve [auto | discriminate | contradiction].
Qed.

Lemma ceil_scaled_shift (m j s K : Z) :
  0 <= j -> 0 <= s ->
  (K - 1) * 2 ^ s < m * 2 ^ j <= K * 2 ^ s ->
  ceil_scaled m (j - s) = K.
Proof.
  intros Hj Hs H. unfold ceil_scaled, floor_scaled.
  destruct (Z.leb_spec 0 (j - s)) as [Hge | Hlt].
  - assert (E : 2 ^ j = 2 ^ (j - s) * 2 ^ s)
      by (rewrite <- Z.pow_add_r by lia; f_equal; lia).
    assert (Hp : 0 < 2 ^ s) by (apply Z.pow_pos_nonneg; lia).
    rewrite E in H. set (T := 2 ^ (j - s)) in *. set (P := 2 ^ s) in *. nia.
  - assert (E : 2 ^ s = 2 ^ (- (j - s)) * 2 ^ j)
      by (rewrite <- Z.pow_add_r by lia; f_equal; lia).
    assert (Hp : 0 < 2 ^ j) by (apply Z.pow_pos_nonneg; lia).
    assert (Hp' : 0 < 2 ^ (- (j - s))) by (apply Z.pow_pos_nonneg; lia).
    rewrite E in H. set (T := 2 ^ (- (j - s))) in *. set (J := 2 ^ j) in *.
    assert (Hb : (K - 1) * T < m <= K * T) by nia.
    assert (Ed : - m / T = - K).
    { symmetry. apply Z.div_unique with (r := K * T - m); lia. }
    rewrite Ed. lia.
Qed.

Lemma round_up_inexact (m : Z) (l : location) :
  round_nearest_even m l = m + 1 -> inexact l = true.
Proof. destruct l as [| c]; simpl; [lia | reflexivity]. Qed.

Lemma SFdiv_ceil_small (a b : positive) (K : Z) :
  Z.pos a < 2 ^ 53 -> Z.pos b < 2 ^ 53 ->
  (K - 1) * Z.pos b < Z.pos a <= K * Z.pos b ->
  math_ceil (SFdiv 53 1024 (S754_finite false a 0) (S754_finite false b 0)) =
  Ok K.
Proof.
  intros Ha Hb HK.
  unfold SFdiv. rewrite SFdiv_core_small by assumption. cbv zeta. cbv beta iota.
  cbn [xorb].
  pose proof (digits2_pos_le_53 a Ha) as Hda.
  pose proof (digits2_pos_le_53 b Hb) as Hdb.
  pose proof (digits2_pos_bounds a) as Ba.
  pose proof (digits2_pos_bounds b) as Bb.
  set (d1 := Z.pos (digits2_pos a)) in *.
  set (d2 := Z.pos (digits2_pos b)) in *.
  set (s := 53 + d2 - d1) in *.
  assert (Hs : 1 <= s <= 105) by (unfold s; lia).
  assert (HS1 : 2 ^ s * 2 ^ (d1 - 1) = 2 ^ 52 * 2 ^ d2).
  { rewrite <- !Z.pow_add_r by lia. f_equal. unfold s. lia. }
  assert (HS2 : 2 ^ s * 2 ^ d1 = 2 ^ 54 * 2 ^ (d2 - 1)).
  { rewrite <- !Z.pow_add_r by lia. f_equal. unfold s. lia. }
  assert (HS3 : 2 ^ s * 2 ^ d1 = 2 ^ 53 * 2 ^ d2).
  { rewrite <- !Z.pow_add_r by lia. f_equal. unfold s. lia. }
  assert (Hd1 : 2 ^ d1 <= 2 ^ 53) by (apply Z.pow_le_mono_r; lia).
  assert (HSe : 2 ^ s = 2 * 2 ^ (s - 1)).
  { rewrite <- Z.pow_succ_r by lia. f_equal. lia. }
  assert (Hh : 0 < 2 ^ (s - 1)) by (apply Z.pow_pos_nonneg; lia).
  assert (Hp1 : 0 < 2 ^ (d1 - 1)) by (apply Z.pow_pos_nonneg; lia).
  assert (Hp2 : 0 < 2 ^ (d2 - 1)) by (apply Z.pow_pos_nonneg; lia).
  assert (Hp3 : 0 < 2 ^ d1) by (apply Z.pow_pos_nonneg; lia).
  set (T := 2 ^ s) in *. set (T' := 2 ^ (s - 1)) in *.
  set (P1 := 2 ^ (d1 - 1)) in *. set (P2 := 2 ^ d2) in *.
  set (P1' := 2 ^ d1) in *. set (P2' := 2 ^ (d2 - 1)) in *.
  change (2 ^ 52) with 4503599627370496 in *.
  change (2 ^ 53) with 9007199254740992 in *.
  change (2 ^ 54) with 18014398509481984 in *.
  assert (HbS : Z.pos b < T) by nia.
  pose proof (Z.div_mod (Z.pos a * T) (Z.pos b) ltac:(lia)) as Hdm.
  pose proof (Z.mod_pos_bound (Z.pos a * T) (Z.pos b) ltac:(lia)) as Hr.
  set (q := Z.pos a * T / Z.pos b) in *.
  set (r := (Z.pos a * T) mod Z.pos b) in *.
  assert (Hq : 4503599627370496 <= q < 18014398509481984).
  { split.
    - apply Z.div_le_lower_bound; [lia | nia].
    - apply Z.div_lt_upper_bound; [lia | nia]. }
  assert (Hlow : (K - 1) * T < q) by nia.
  assert (Hup : q <= K * T) by nia.
  assert (Hup' : r <> 0 -> q < K * T) by nia.
  set (l := new_location (Z.pos b) r).
  pose proof (new_location_exact (Z.pos b) r) as Hl. fold l in Hl.
  destruct (Z_lt_le_dec q 9007199254740992) as [Hq53 | Hq54].
  - rewrite binary_round_aux_53
      by (change (2 ^ 52) with 4503599627370496;
          change (2 ^ 53) with 9007199254740992; lia).
    cbv zeta. change (2 ^ 53) with 9007199254740992.
    set (m1 := round_nearest_even q l).
    assert (Hm1 : (K - 1) * T < m1 <= K * T).
    { destruct (round_nearest_even_bounds q l) as [E | E]; fold m1 in E.
      - lia.
      - pose proof (round_up_inexact q l E) as Ei.
        assert (r <> 0) by (intros Hr0; apply Hl in Hr0; congruence).
        lia. }
    assert (Hpos : 0 < m1)
      by (destruct (round_nearest_even_bounds q l) as [E | E]; fold m1 in E; lia).
    destruct (Z.eqb_spec m1 9007199254740992) as [E | NE]; cbn [math_ceil]; f_equal.
    + replace (- s + 1) with (1 - s) by lia.
      apply ceil_scaled_shift; [lia | lia |]. fold T.
      change (Z.pos (2 ^ 52) * 2 ^ 1) with 9007199254740992. lia.
    + rewrite Z2Pos.id by lia. replace (- s) with (0 - s) by lia.
      apply ceil_scaled_shift; [lia | lia |]. fold T.
      change (2 ^ 0) with 1. lia.
  - rewrite binary_round_aux_54
      by (change (2 ^ 54) with 18014398509481984;
          change (2 ^ 53) with 9007199254740992; lia).
    cbv zeta. change (2 ^ 53) with 9007199254740992.
    set (l' := loc_of_shr_record _).
    set (m1 := round_nearest_even (q / 2) l').
    pose proof (Z.div_mod q 2 ltac:(lia)) as Hq2.
    pose proof (Z.mod_pos_bound q 2 ltac:(lia)) as Hq2'.
    assert (Hodd : Z.odd q = true <-> q mod 2 = 1).
    { rewrite Zmod_odd. destruct (Z.odd q); split; intros;
        solve [lia | auto | discriminate]. }
    assert (Hm1 : (K - 1) * T' < m1 <= K * T').
    { destruct (round_nearest_even_bounds (q / 2) l') as [E | E]; fold m1 in E.
      - (* rounded down *)
        split; [| lia].
        destruct (Z.odd q) eqn:Eo.
        + apply proj1 in Hodd. specialize (Hodd eq_refl).
          destruct (inexact l) eqn:Ei.
          * (* Inexact Gt rounds up *)
            exfalso. unfold m1, l' in E. simpl in E. lia.
          * assert (Hr0 : r = 0) by (apply Hl; reflexivity). nia.
        + assert (q mod 2 = 0).
          { destruct (Z.eq_dec (q mod 2) 1) as [E1 |]; [| lia].
            apply Hodd in E1. congruence. }
          lia.
      - (* rounded up *)
        assert (Eo : Z.odd q = true).
        { unfold m1, l' in E.
          destruct (Z.odd q); [reflexivity |].
          destruct (inexact l); simpl in E; lia. }
        apply Hodd in Eo. split; [lia |]. lia. }
    destruct (Z.eqb_spec m1 9007199254740992) as [E | NE]; cbn [math_ceil]; f_equal.
    + replace (- s + 2) with (2 - s) by lia.
      apply ceil_scaled_shift; [lia | lia |]. fold T.
      change (Z.pos (2 ^ 52) * 2 ^ 2) with (2 * 9007199254740992). lia.
    + assert (0 < m1) by (unfold m1 in *; destruct (round_nearest_even_bounds (q / 2) l'); nia).
      rewrite Z2Pos.id by lia. replace (- s + 1) with (1 - s) by lia.
      apply ceil_scaled_shift; [lia | lia |]. fold T.
      change (2 ^ 1) with 2. lia.
Qed.

Lemma exact_ceil_div_spec (n d : Z) :
  0 < d -> (exact_ceil_div n d - 1) * d < n <= exact_ceil_div n d * d.
Proof.
  intros Hd. destruct d as [| dp | dp]; try lia.
  unfold exact_ceil_div, Qceiling, Qfloor, Qdiv, Qinv, Qmult, Qopp, inject_Z.
  simpl. rewrite Z.mul_1_r.
  pose proof (Z.div_mod (- n) (Z.pos dp) ltac:(lia)) as Hdm.
  pose proof (Z.mod_pos_bound (- n) (Z.pos dp) ltac:(lia)) as Hmod.
  change (1 * dp)%positive with dp. nia.
Qed.

(** For a dividend and a divisor below 2^53, [math.ceil(n / d)] is the
    ceiling of the exact quotient. *)
Lemma ceil_div_exact (n d : Z) :
  0 <= n < 2 ^ 53 -> 1 <= d < 2 ^ 53 ->
  ceil_div n d = Ok (exact_ceil_div n d).
Proof.
  intros Hn Hd. pose proof (exact_ceil_div_spec n d ltac:(lia)) as Hc.
  unfold ceil_div, int_truediv.
  destruct (Z.eqb_spec d 0); [lia |].
  destruct d as [| b | b]; try lia.
  destruct n as [| a | a]; try lia.
  - reflexivity.
  - pose proof (SFdiv_ceil_small a b (exact_ceil_div (Z.pos a) (Z.pos b))
                  ltac:(lia) ltac:(lia) Hc) as Hs.
    destruct (SFdiv 53 1024 (S754_finite false a 0) (S754_finite false b 0))
      as [sg | sg | | sg m e]; cbn [bind]; try exact Hs; discriminate.
Qed.

Lemma ceil_div_by_zero (n : Z) : ceil_div n 0 = Raise ZeroDivisionError.
Proof. reflexivity. Qed.

(** Only a zero divisor makes [ceil_div] raise [ZeroDivisionError]. *)
Lemma ceil_div_ZeroDivisionError (n d : Z) :
  ceil_div n d = Raise ZeroDivisionError <-> d = 0.
Proof.
  split; [| intros ->; reflexivity].
  unfold ceil_div, int_truediv. destruct (Z.eqb_spec d 0); [auto |].
  destruct (SFdiv _ _ _ _) as [sg | sg | | sg m e]; cbn [bind math_ceil];
    discriminate.
Qed.

(** The float quotient can be off from the exact one: for 2^53 + 1
    divided by 1 the code gets 2^53. *)
Lemma ceil_div_rounds :
  ceil_div (2 ^ 53 + 1) 1 = Ok (2 ^ 53) /\ ceil_div 100 3 = Ok 34.
Proof. split; vm_compute; reflexivity. Qed.



(** ** The store *)

Section StoreFacts.
Context {A : Type}.
Implicit Types (s : gmap nat (pyobj A)) (r : nat).

Lemma unchanged_refl s : unchanged s s.
Proof. intros l _. reflexivity. Qed.

Lemma unchanged_insert s0 s r (o : pyobj A) :
  unchanged s0 s -> r ∉ dom s0 -> unchanged s0 (<[r := o]> s).
Proof.
  intros Hu Hr l Hl. rewrite lookup_insert_ne; [apply Hu, Hl |].
  intros ->. contradiction.
Qed.

Lemma unchanged_dom s0 s : unchanged s0 s -> dom s0 ⊆ dom s.
Proof.
  intros Hu l Hl. apply elem_of_dom. rewrite (Hu l Hl).
  apply elem_of_dom, Hl.
Qed.

Lemma unchanged_fresh s0 s : unchanged s0 s -> fresh (dom s) ∉ dom s0.
Proof.
  intros Hu Hin. apply (is_fresh (dom s)). apply (unchanged_dom s0 s Hu), Hin.
Qed.

Lemma fresh_lookup s : s !! fresh (dom s) = None.
Proof. apply not_elem_of_dom, is_fresh. Qed.

Lemma bindM_lift_ok {R S : Type} (v : R) (k : R -> M A S) s :
  bindM (lift (Ok v)) k s = k v s.
Proof. reflexivity. Qed.

Lemma bindM_lift_raise {R S : Type} (e : PyExn) (k : R -> M A S) s :
  bindM (lift (Raise e)) k s = (Raise e, s).
Proof. reflexivity. Qed.

Lemma bindM_alloc {S : Type} (o : pyobj A) (k : nat -> M A S) s :
  bindM (alloc o) k s = k (fresh (dom s)) (<[fresh (dom s) := o]> s).
Proof. reflexivity. Qed.

Lemma bindM_read_ints {S : Type} r (l : list Z) (k : list Z -> M A S) s :
  s !! r = Some (IntList l) -> bindM (read_ints r) k s = k l s.
Proof. intros H. unfold bindM, read_ints. rewrite H. reflexivity. Qed.

Lemma bindM_read_transforms {S : Type} r (l : list (option (A -> result A)))
    (k : list (option (A -> result A)) -> M A S) s :
  s !! r = Some (TransformList l) -> bindM (read_transforms r) k s = k l s.
Proof. intros H. unfold bindM, read_transforms. rewrite H. reflexivity. Qed.

(** The conditional append leaves in the object what [append_last]
    computes. *)
Lemma bindM_append_last_st {S : Type} r (l : list Z) (last : Z)
    (k : unit -> M A S) s :
  s !! r = Some (IntList l) ->
  bindM (append_last_st r last) k s =
    k tt (<[r := IntList (append_last l last)]> s).
Proof.
  intros H. unfold append_last_st, append_last.
  unfold bindM at 1. unfold bindM at 1. unfold read_ints. rewrite H.
  destruct (_ || _).
  - unfold append_int. rewrite H. reflexivity.
  - unfold ret. rewrite insert_id by assumption. reflexivity.
Qed.

(** The loop appends the windows one by one to the same object. *)
Lemma for_each_append_window {X : Type} (body : X -> M A unit)
    (g : X -> SlidingWindow A) r (dims : list X) :
  (forall a, body a = append_window r (g a)) ->
  forall (l0 : list (SlidingWindow A)) s,
    s !! r = Some (WindowList l0) ->
    for_each dims body s = (Ok tt, <[r := WindowList (l0 ++ map g dims)]> s).
Proof.
  intros Hbody. induction dims as [| a dims IH]; intros l0 s Hs; simpl.
  - unfold ret. rewrite app_nil_r, insert_id by assumption. reflexivity.
  - unfold bindM. rewrite Hbody. unfold append_window. rewrite Hs.
    rewrite (IH (l0 ++ [g a])) by apply lookup_insert_eq.
    rewrite insert_insert_eq, <- app_assoc. reflexivity.
Qed.
End StoreFacts.

(** One call over the store: nothing that existed before changes, and
    the caller gets what the function over values computes. *)
Lemma generateForSize_st_spec {A : Type} (defaults : nat) (width height : Z)
    (dimOrder : list string) (maxWindowSize : Z) (overlapPercent : Q)
    (transforms : option nat) (overrideWidth overrideHeight : option Z)
    (iterorder : list string) (s : gmap nat (pyobj A))
    (ts : list (option (A -> result A))) :
  s !! (match transforms with None => defaults | Some r => r end) =
    Some (TransformList ts) ->
  let run := generateForSize_st defaults width height dimOrder maxWindowSize
               overlapPercent transforms overrideWidth overrideHeight
               iterorder s in
  unchanged s (snd run) /\
  outcome run =
    generateForSize width height dimOrder maxWindowSize overlapPercent ts
      overrideWidth overrideHeight iterorder.
Proof.
  set (tr := match transforms with None => defaults | Some r => r end).
  intros Htr. unfold generateForSize_st, generateForSize. fold tr. cbv zeta.
  set (wsX := Z.min _ width). set (wsY := Z.min _ height).
  destruct (py_range 0 (width - wsX + 1) _) as [rangeX | e];
    [| rewrite bindM_lift_raise; split; [apply unchanged_refl | reflexivity]].
  rewrite bindM_lift_ok, bindM_alloc.
  set (rx := fresh (dom s)).
  assert (Hrx : rx ∉ dom s) by apply is_fresh.
  assert (Htrx : tr <> rx).
  { intros E. apply Hrx. rewrite <- E. apply elem_of_dom. eauto. }
  destruct (py_range 0 (height - wsY + 1) _) as [rangeY | e].
  2:{ rewrite bindM_lift_raise. split; [| reflexivity].
      apply unchanged_insert; [apply unchanged_refl | assumption]. }
  rewrite bindM_lift_ok, bindM_alloc. cbn [bind].
  set (s1 := <[rx := IntList rangeX]> s).
  set (ry := fresh (dom s1)).
  assert (Hry : ry ∉ dom s1) by apply is_fresh.
  unfold s1 in Hry. rewrite dom_insert_L in Hry.
  assert (Hryx : ry <> rx) by set_solver.
  assert (Hrys : ry ∉ dom s) by set_solver.
  rewrite (bindM_append_last_st rx rangeX)
    by (rewrite lookup_insert_ne by congruence; apply lookup_insert_eq).
  set (xs := append_last rangeX (width - wsX)).
  rewrite (bindM_append_last_st ry rangeY)
    by (rewrite lookup_insert_ne by congruence; apply lookup_insert_eq).
  set (ys := append_last rangeY (height - wsY)).
  set (s2 := <[ry := IntList ys]> (<[rx := IntList xs]>
               (<[ry := IntList rangeY]> s1))).
  assert (Hs2x : s2 !! rx = Some (IntList xs)).
  { unfold s2. rewrite lookup_insert_ne by congruence. apply lookup_insert_eq. }
  assert (Hs2y : s2 !! ry = Some (IntList ys)) by apply lookup_insert_eq.
  assert (Hs2t : s2 !! tr = Some (TransformList ts)).
  { assert (tr <> ry).
    { intros E. apply Hrys. rewrite <- E. apply elem_of_dom. eauto. }
    unfold s2, s1. rewrite !lookup_insert_ne by congruence. exact Htr. }
  assert (Hs2 : unchanged s s2).
  { unfold s2, s1. repeat apply unchanged_insert; try assumption.
    apply unchanged_refl. }
  rewrite bindM_alloc.
  set (rw := fresh (dom s2)).
  assert (Hrw : s2 !! rw = None) by apply fresh_lookup.
  assert (Hrws : rw ∉ dom s) by (apply unchanged_fresh; assumption).
  set (s3 := <[rw := WindowList []]> s2).
  assert (Hs3 : unchanged s s3)
    by (apply unchanged_insert; assumption).
  assert (Hs3o : forall l o, s2 !! l = Some o -> s3 !! l = Some o).
  { intros l o Hl. unfold s3. rewrite lookup_insert_ne; [assumption |].
    intros <-. congruence. }
  rewrite (bindM_read_transforms tr ts) by (apply Hs3o; assumption).
  rewrite bindM_alloc.
  set (rt := fresh (dom s3)).
  assert (Hrt : s3 !! rt = None) by apply fresh_lookup.
  assert (Hrts : rt ∉ dom s) by (apply unchanged_fresh; assumption).
  set (s4 := <[rt := TransformList (None :: ts)]> s3).
  assert (Hs4 : unchanged s s4)
    by (apply unchanged_insert; assumption).
  assert (Hs4o : forall l o, s3 !! l = Some o -> s4 !! l = Some o).
  { intros l o Hl. unfold s4. rewrite lookup_insert_ne; [assumption |].
    intros <-. congruence. }
  rewrite (bindM_read_ints rx xs) by (apply Hs4o, Hs3o; assumption).
  rewrite (bindM_read_ints ry ys) by (apply Hs4o, Hs3o; assumption).
  rewrite (bindM_read_transforms rt (None :: ts)) by apply lookup_insert_eq.
  cbn [bind].
  destruct (iterate_dims xs ys (None :: ts) iterorder) as [dims | e].
  2:{ rewrite bindM_lift_raise. split; [assumption | reflexivity]. }
  rewrite bindM_lift_ok. cbn [bind].
  set (g := fun '(xOffset, yOffset, t) =>
              mkWindow (A:=A) xOffset yOffset wsX wsY dimOrder t).
  assert (Hloop : forall k : unit -> M A nat,
             bindM (for_each dims
                      (fun '(xOffset, yOffset, t) =>
                         append_window rw
                           (mkWindow xOffset yOffset wsX wsY dimOrder t))) k s4 =
             k tt (<[rw := WindowList (map g dims)]> s4)).
  { intros k. unfold bindM.
    rewrite (for_each_append_window _ g rw dims) with (l0 := []);
      [reflexivity | intros [[a b] t]; reflexivity
      | apply Hs4o, lookup_insert_eq ]. }
  rewrite Hloop. unfold ret, outcome. cbn [fst snd].
  split.
  - apply unchanged_insert; assumption.
  - rewrite lookup_insert_eq. reflexivity.
Qed.

(** C10.  A call of [generateForSize] leaves the list object it is given
    as [transforms] (the list of the caller, or the shared default list
    when the argument is omitted) with the elements it had, as it leaves
    every object that existed before the call: [[None] + transforms]
    is a new list.  The caller gets the windows that the function over
    values computes from those elements, and a second call with the same
    arguments, run in the store the first one left, gets the same
    windows. *)
Theorem C10_transforms_not_mutated {A : Type} (defaults : nat) (width height : Z)
    (dimOrder : list string) (maxWindowSize : Z) (overlapPercent : Q)
    (transforms : option nat) (overrideWidth overrideHeight : option Z)
    (iterorder : list string) (s : gmap nat (pyobj A))
    (ts : list (option (A -> result A))) :
  let tr := match transforms with None => defaults | Some r => r end in
  s !! tr = Some (TransformList ts) ->
  let call := generateForSize_st defaults width height dimOrder maxWindowSize
                overlapPercent transforms overrideWidth overrideHeight
                iterorder in
  let run1 := call s in
  let run2 := call (snd run1) in
  snd run1 !! tr = Some (TransformList ts) /\
  unchanged s (snd run1) /\
  outcome run1 =
    generateForSize width height dimOrder maxWindowSize overlapPercent ts
      overrideWidth overrideHeight iterorder /\
  snd run2 !! tr = Some (TransformList ts) /\
  outcome run2 = outcome run1.
Proof.
  intros tr Htr call run1 run2.
  destruct (generateForSize_st_spec defaults width height dimOrder
              maxWindowSize overlapPercent transforms overrideWidth
              overrideHeight iterorder s ts Htr) as [Hu1 Ho1].
  fold call run1 in Hu1, Ho1.
  assert (Htr1 : snd run1 !! tr = Some (TransformList ts)).
  { rewrite Hu1; [exact Htr |]. apply elem_of_dom. eauto. }
  destruct (generateForSize_st_spec defaults width height dimOrder
              maxWindowSize overlapPercent transforms overrideWidth
              overrideHeight iterorder (snd run1) ts Htr1) as [Hu2 Ho2].
  fold call run2 in Hu2, Ho2.
  repeat split; try assumption.
  - rewrite Hu2; [exact Htr1 |]. apply elem_of_dom. eauto.
  - rewrite Ho1, Ho2. reflexivity.
Qed.

Lemma C10_transforms_not_mutated_witness :
  let s : gmap nat (pyobj Z) := {[ 0%nat := TransformList [] ]} in
  let call := generateForSize_st 0 10 10 DimOrder.HeightWidthChannel 5 0
                None None None IterOrder.TransformWidthHeight in
  snd (call s) !! 0%nat = Some (TransformList []) /\
  unchanged s (snd (call s)) /\
  outcome (call s) =
    generateForSize 10 10 DimOrder.HeightWidthChannel 5 0 [] None None
      IterOrder.TransformWidthHeight /\
  snd (call (snd (call s))) !! 0%nat = Some (TransformList []) /\
  outcome (call (snd (call s))) = outcome (call s).
Proof.
  intros s call.
  apply (C10_transforms_not_mutated (A:=Z) 0 10 10 DimOrder.HeightWidthChannel
           5 0 None None None IterOrder.TransformWidthHeight s []).
  apply lookup_singleton_eq.
Defined.

(** * Further properties *)

(** ** The rectangle of a window *)

(** X1.  [setRect] replaces the four geometry fields and nothing else, and
    [getRect] reads them back. *)
Theorem setRect_getRect_roundtrip {A : Type} (self : SlidingWindow A)
    (rect : Z * Z * Z * Z) :
  getRect (setRect self rect) = rect /\
  setRect self (getRect self) = self /\
  dimOrder (setRect self rect) = dimOrder self /\
  transform (setRect self rect) = transform self /\
  (forall rect', setRect (setRect self rect) rect' = setRect self rect').
Proof.
  destruct self as [x0 y0 w0 h0 d t], rect as [[[x1 y1] w1] h1].
  repeat split.
Qed.

(** ** The rendering of a window *)

Lemma append_cons (a : ascii) (s t : string) :
  String a s +:+ t = String a (s +:+ t).
Proof. reflexivity. Qed.

Lemma append_assoc (s t u : string) : (s +:+ t) +:+ u = s +:+ (t +:+ u).
Proof.
  induction s as [| a s IH]; [reflexivity |].
  rewrite !append_cons. f_equal. exact IH.
Qed.

(** Two strings without [c] that are followed by [c] and agree as a whole
    agree part by part. *)
Lemma append_sep_inj (c : ascii) (s1 s2 r1 r2 : string) :
  occurs c s1 = false -> occurs c s2 = false ->
  s1 +:+ String c r1 = s2 +:+ String c r2 -> s1 = s2 /\ r1 = r2.
Proof.
  revert s2. induction s1 as [| a s1 IH]; intros [| b s2] H1 H2 E.
  - injection E as ->. auto.
  - rewrite append_cons in E. injection E as <- _.
    simpl in H2. rewrite decide_True in H2 by reflexivity. discriminate.
  - rewrite append_cons in E. injection E as -> _.
    simpl in H1. rewrite decide_True in H1 by reflexivity. discriminate.
  - rewrite !append_cons in E. injection E as -> E.
    simpl in H1, H2. destruct (decide (b = c)); [discriminate |].
    destruct (IH s2 H1 H2 E) as [-> ->]. auto.
Qed.

Lemma occurs_pretty_N_go (c : ascii) (n : N) (s : string) :
  (forall d, pretty_N_char d <> c) -> occurs c s = false ->
  occurs c (pretty_N_go n s) = false.
Proof.
  intros Hc. revert s. induction (N.lt_wf_0 n) as [n _ IH]; intros s Hs.
  destruct (N.eq_dec n 0%N) as [-> | Hn].
  - rewrite pretty_N_go_0. exact Hs.
  - rewrite pretty_N_go_step by lia. apply IH.
    + apply N.div_lt; lia.
    + simpl. rewrite decide_False by apply Hc. exact Hs.
Qed.

Lemma pretty_N_char_digit (d : N) :
  pretty_N_char d <> ","%char /\ pretty_N_char d <> ")"%char.
Proof. unfold pretty_N_char. repeat case_match; split; discriminate. Qed.

(** The decimal rendering of an integer has no comma and no closing
    parenthesis. *)
Lemma occurs_py_str (n : Z) :
  occurs "," (py_str n) = false /\ occurs ")" (py_str n) = false.
Proof.
  assert (HN : forall m : N, occurs "," (pretty m) = false /\
                             occurs ")" (pretty m) = false).
  { intros m. unfold pretty, pretty_N. case_decide; [split; reflexivity |].
    split; apply occurs_pretty_N_go; try reflexivity;
      intros d; apply pretty_N_char_digit. }
  unfold py_str, pretty, pretty_Z. destruct n as [| q | q].
  - split; reflexivity.
  - apply HN.
  - destruct (HN (N.pos q)) as [H1 H2]. split; simpl; assumption.
Qed.

(** X2.  The text [(x,y,w,h)] determines the rectangle and only the
    rectangle: two windows have the same rendering exactly when they have
    the same rectangle, whatever their dimension order and transform;
    [__repr__] gives the same text. *)
Theorem str_determines_rect {A : Type} (w1 w2 : SlidingWindow A) :
  (__str__ w1 = __str__ w2 <-> getRect w1 = getRect w2) /\
  __repr__ w1 = __str__ w1.
Proof.
  split; [| reflexivity]. unfold __str__, getRect. split.
  - rewrite !append_assoc. intros E.
    change ("(" +:+ ?s) with (String "(" s) in E.
    injection E as E.
    change ("," +:+ ?s) with (String "," s) in E.
    change (")" +:+ "") with (String ")" "") in E.
    apply append_sep_inj in E as [Ex E]; try apply occurs_py_str.
    apply append_sep_inj in E as [Ey E]; try apply occurs_py_str.
    apply append_sep_inj in E as [Ew E]; try apply occurs_py_str.
    apply append_sep_inj in E as [Eh _]; try apply occurs_py_str.
    unfold py_str in *.
    apply (inj pretty) in Ex, Ey, Ew, Eh. congruence.
  - intros [= -> -> -> ->]. reflexivity.
Qed.

(** ** Reading the dimensions of the data *)

Lemma list_index_missing (v : string) (l : list string) :
  v ∉ l <-> list_index v l = Raise (ValueError "is not in list").
Proof.
  induction l as [| a l IH]; simpl.
  - split; [reflexivity | intros _ H; inversion H].
  - rewrite not_elem_of_cons. destruct (decide (a = v)) as [-> | Hne].
    + split; [intros [H _]; contradiction | discriminate].
    + destruct (list_index v l) as [i | e]; simpl.
      * split; [| discriminate]. intros [_ H]. apply IH in H. discriminate.
      * split; [intros [_ H]; apply IH in H; exact H |].
        intros H. split; [congruence |]. apply IH. exact H.
Qed.

Lemma list_index_raise (v : string) (l : list string) (e : PyExn) :
  list_index v l = Raise e -> (v ∉ l) /\ e = ValueError "is not in list".
Proof.
  revert e. induction l as [| a l IH]; simpl; intros e H.
  - injection H as <-. split; [intros Hin; inversion Hin | reflexivity].
  - destruct (decide (a = v)) as [| Hne]; [discriminate |].
    destruct (list_index v l) as [i | e'] eqn:E; simpl in H; [discriminate |].
    injection H as <-. destruct (IH e' eq_refl) as [Hn ->].
    split; [| reflexivity]. apply not_elem_of_cons. split; [congruence | exact Hn].
Qed.

(** [list_index] finds the first position that holds the value. *)
Lemma list_index_first (v : string) (l : list string) (i : nat) :
  list_index v l = Ok i <->
  l !! i = Some v /\ forall j, (j < i)%nat -> l !! j <> Some v.
Proof.
  revert i. induction l as [| a l IH]; intros i; simpl.
  - split; [discriminate | intros [H _]; discriminate].
  - destruct (decide (a = v)) as [-> | Hne].
    + split.
      * intros [= <-]. split; [reflexivity | intros j Hj; lia].
      * intros [Hi Hfirst]. destruct i as [| i]; [reflexivity |].
        exfalso. apply (Hfirst 0%nat); [lia | reflexivity].
    + destruct i as [| i].
      * split.
        -- destruct (list_index v l); discriminate.
        -- intros [[= ->] _]. contradiction.
      * specialize (IH i). destruct (list_index v l) as [k | e]; simpl.
        -- split.
           ++ intros [= <-]. destruct (proj1 IH eq_refl) as [Hk Hf].
              split; [exact Hk |]. intros [| j] Hj; simpl.
              ** congruence.
              ** apply Hf. lia.
           ++ intros [Hi Hf]. f_equal. f_equal.
              assert (E : Ok k = Ok i); [| congruence].
              apply IH. split; [exact Hi |].
              intros j Hj. apply (Hf (S j)). lia.
        -- split; [discriminate |]. intros [Hi Hf].
           assert (E : Raise e = Ok i); [| discriminate].
           apply IH. split; [exact Hi |].
           intros j Hj. apply (Hf (S j)). lia.
Qed.

Lemma generate_shape_dimensions {A : Type} (data : ndarray) (dimOrder : list string)
    (maxWindowSize : Z) (p : Q) (transforms : list (option (A -> result A)))
    (overrideWidth overrideHeight : option Z) (io : list string) :
  generate data dimOrder maxWindowSize p transforms overrideWidth overrideHeight io =
  let! wh := shape_dimensions data dimOrder in
  generateForSize (fst wh) (snd wh) dimOrder maxWindowSize p transforms
    overrideWidth overrideHeight io.
Proof.
  unfold generate, shape_dimensions.
  destruct (list_index "w" dimOrder); [| reflexivity]. cbn [bind].
  destruct (shape_get _ _); [| reflexivity]. cbn [bind].
  destruct (list_index "h" dimOrder); [| reflexivity]. cbn [bind].
  destruct (shape_get _ _); reflexivity.
Qed.

Lemma generateRectanglarWindows_shape_dimensions {A : Type} (data : ndarray)
    (dimOrder : list string) (windowHeight windowWidth : Z) (p : Q)
    (transforms : list (option (A -> result A))) (io : list string) :
  generateRectanglarWindows data dimOrder (windowHeight, windowWidth) p transforms io =
  let! wh := shape_dimensions data dimOrder in
  generateForSize (fst wh) (snd wh) dimOrder 0 p transforms
    (Some windowWidth) (Some windowHeight) io.
Proof.
  unfold generateRectanglarWindows, shape_dimensions.
  destruct (list_index "w" dimOrder); [| reflexivity]. cbn [bind].
  destruct (shape_get _ _); [| reflexivity]. cbn [bind].
  destruct (list_index "h" dimOrder); [| reflexivity]. cbn [bind].
  destruct (shape_get _ _); reflexivity.
Qed.

Lemma generateForNumberOfWindows_shape_dimensions {A : Type} (data : ndarray)
    (dimOrder : list string) (countY countX : Z) (p : Q)
    (transforms : list (option (A -> result A))) (io : list string) :
  generateForNumberOfWindows data dimOrder (countY, countX) p transforms io =
  let! wh := shape_dimensions data dimOrder in
  let! windowSizeX := ceil_div (fst wh) countX in
  let! windowSizeY := ceil_div (snd wh) countY in
  generateForSize (fst wh) (snd wh) dimOrder 0 p transforms
    (Some windowSizeX) (Some windowSizeY) io.
Proof.
  unfold generateForNumberOfWindows, shape_dimensions.
  destruct (list_index "w" dimOrder); [| reflexivity]. cbn [bind].
  destruct (shape_get _ _); [| reflexivity]. cbn [bind].
  destruct (list_index "h" dimOrder); [| reflexivity]. cbn [bind].
  destruct (shape_get _ _); reflexivity.
Qed.

(** What reading the dimensions gives: the entries of the shape at the
    first positions of ["w"] and ["h"] in the dimension order; a
    [ValueError] when a tag is missing; an [IndexError] when the shape
    has no such position. *)
Lemma shape_dimensions_spec (data : ndarray) (dimOrder : list string) :
  match shape_dimensions data dimOrder with
  | Ok (width, height) =>
      exists iw ih,
        list_index "w" dimOrder = Ok iw /\ list_index "h" dimOrder = Ok ih /\
        shape data !! iw = Some width /\ shape data !! ih = Some height
  | Raise (ValueError _) =>
      ("w" ∉ dimOrder) \/ ("h" ∉ dimOrder)
  | Raise IndexError =>
      exists i, (list_index "w" dimOrder = Ok i \/ list_index "h" dimOrder = Ok i) /\
                (length (shape data) <= i)%nat
  | Raise _ => False
  end.
Proof.
  unfold shape_dimensions, shape_get.
  destruct (list_index "w" dimOrder) as [iw | e] eqn:Hw; cbn [bind].
  - destruct (shape data !! iw) as [width |] eqn:Hsw; cbn [bind].
    + destruct (list_index "h" dimOrder) as [ih | e] eqn:Hh; cbn [bind].
      * destruct (shape data !! ih) as [height |] eqn:Hsh; cbn [bind].
        -- exists iw, ih. auto.
        -- exists ih. split; [auto |]. apply lookup_ge_None. exact Hsh.
      * destruct (list_index_raise _ _ _ Hh) as [Hm ->]. right. exact Hm.
    + exists iw. split; [auto |]. apply lookup_ge_None. exact Hsw.
  - destruct (list_index_raise _ _ _ Hw) as [Hm ->]. left. exact Hm.
Qed.

Lemma entry_points_raise {A : Type} (data : ndarray) (dimOrder : list string)
    (e : PyExn) (maxWindowSize : Z) (p : Q)
    (transforms : list (option (A -> result A)))
    (overrideWidth overrideHeight : option Z) (windowShape windowCount : Z * Z)
    (io : list string) :
  shape_dimensions data dimOrder = Raise e ->
  generate data dimOrder maxWindowSize p transforms overrideWidth overrideHeight io
    = Raise e /\
  generateRectanglarWindows data dimOrder windowShape p transforms io = Raise e /\
  generateForNumberOfWindows data dimOrder windowCount p transforms io = Raise e.
Proof.
  intros H. destruct windowShape as [wh ww], windowCount as [cy cx].
  rewrite generate_shape_dimensions, generateRectanglarWindows_shape_dimensions,
    generateForNumberOfWindows_shape_dimensions, H.
  repeat split.
Qed.

(** X3.  The three entry points that take the data read its width and height
    before anything else, so they fail in the same way whatever the other
    arguments are: with [ValueError] when the dimension order has no ["w"]
    or no ["h"], with [IndexError] when the shape has no axis at the
    position of the tag. *)
Theorem entry_points_dimension_errors {A : Type} (data : ndarray)
    (dimOrder : list string) (maxWindowSize : Z) (p : Q)
    (transforms : list (option (A -> result A)))
    (overrideWidth overrideHeight : option Z) (windowShape windowCount : Z * Z)
    (io : list string) :
  let all_raise e :=
    generate data dimOrder maxWindowSize p transforms overrideWidth overrideHeight io
      = Raise e /\
    generateRectanglarWindows data dimOrder windowShape p transforms io = Raise e /\
    generateForNumberOfWindows data dimOrder windowCount p transforms io = Raise e in
  (("w" ∉ dimOrder) -> all_raise (ValueError "is not in list")) /\
  (forall iw, list_index "w" dimOrder = Ok iw ->
     (length (shape data) <= iw)%nat -> all_raise IndexError) /\
  (forall iw, list_index "w" dimOrder = Ok iw ->
     (iw < length (shape data))%nat -> ("h" ∉ dimOrder) ->
     all_raise (ValueError "is not in list")) /\
  (forall iw ih, list_index "w" dimOrder = Ok iw ->
     (iw < length (shape data))%nat -> list_index "h" dimOrder = Ok ih ->
     (length (shape data) <= ih)%nat -> all_raise IndexError).
Proof.
  intros all_raise. unfold all_raise.
  split; [| split; [| split]].
  - intros Hw. apply entry_points_raise. unfold shape_dimensions.
    apply list_index_missing in Hw. rewrite Hw. reflexivity.
  - intros iw Hw Hlen. apply entry_points_raise. unfold shape_dimensions, shape_get.
    rewrite Hw. cbn [bind]. rewrite (proj2 (lookup_ge_None _ _) Hlen). reflexivity.
  - intros iw Hw Hlen Hh. apply entry_points_raise.
    unfold shape_dimensions, shape_get. rewrite Hw. cbn [bind].
    destruct (lookup_lt_is_Some_2 _ _ Hlen) as [width ->]. cbn [bind].
    apply list_index_missing in Hh. rewrite Hh. reflexivity.
  - intros iw ih Hw Hlen Hh Hlen'. apply entry_points_raise.
    unfold shape_dimensions, shape_get. rewrite Hw. cbn [bind].
    destruct (lookup_lt_is_Some_2 _ _ Hlen) as [width ->]. cbn [bind].
    rewrite Hh. cbn [bind]. rewrite (proj2 (lookup_ge_None _ _) Hlen'). reflexivity.
Qed.

Lemma entry_points_dimension_errors_witness :
  generate (A:=Z) {| shape := [480; 640] |} DimOrder.ChannelHeightWidth 64 (1 # 2)
    [] None None IterOrder.TransformHeightWidth = Raise IndexError /\
  generateRectanglarWindows (A:=Z) {| shape := [480; 640] |}
    DimOrder.ChannelHeightWidth (32, 64) (1 # 2) []
    IterOrder.TransformHeightWidth = Raise IndexError /\
  generateForNumberOfWindows (A:=Z) {| shape := [480; 640] |}
    DimOrder.ChannelHeightWidth (0, 0) (1 # 2) []
    IterOrder.TransformHeightWidth = Raise IndexError.
Proof.
  apply (proj1 (proj2 (entry_points_dimension_errors (A:=Z)
           {| shape := [480; 640] |} DimOrder.ChannelHeightWidth 64 (1 # 2) []
           None None (32, 64) (0, 0) IterOrder.TransformHeightWidth)) 2%nat);
    [reflexivity | simpl; lia].
Defined.

(** X4.  [generate] on an array stored height-width-channel or
    channel-height-width reads the width and the height from the right
    axes: for an overlap fraction in [0, 1) and steps of at least one
    pixel its windows cover exactly [0, width) x [0, height). *)
Theorem generate_covers_array {A : Type} (height width channels : Z)
    (maxWindowSize : Z) (overlapPercent : Q)
    (transforms : list (option (A -> result A)))
    (overrideWidth overrideHeight : option Z) (iterorder : list string) :
  (0 <= overlapPercent)%Q -> (overlapPercent < 1)%Q ->
  1 <= stepSize (windowSize maxWindowSize overrideWidth width) overlapPercent ->
  1 <= stepSize (windowSize maxWindowSize overrideHeight height) overlapPercent ->
  supported_iterorder iterorder ->
  forall (data : ndarray) (dimOrder : list string),
    (dimOrder = DimOrder.HeightWidthChannel /\
     shape data = [height; width; channels]) \/
    (dimOrder = DimOrder.ChannelHeightWidth /\
     shape data = [channels; height; width]) ->
    exists wins,
      generate data dimOrder maxWindowSize overlapPercent transforms
        overrideWidth overrideHeight iterorder = Ok wins /\
      forall i j,
        (0 <= i < width /\ 0 <= j < height) <->
        (exists win, win ∈ wins /\ contains win i j).
Proof.
  intros Hp0 Hp1 HsX HsY Hio data dimOrder Hd.
  assert (Hdim : shape_dimensions data dimOrder = Ok (width, height)).
  { unfold shape_dimensions. destruct Hd as [[-> ->] | [-> ->]]; reflexivity. }
  rewrite generate_shape_dimensions, Hdim. cbn [bind fst snd].
  pose proof (stepSize_fraction _ _ Hp0 Hp1 HsX) as HX.
  pose proof (stepSize_fraction _ _ Hp0 Hp1 HsY) as HY.
  destruct (generateForSize_ok width height dimOrder maxWindowSize
              overlapPercent transforms overrideWidth overrideHeight iterorder)
    as [wins Hgen]; [lia | lia | assumption |].
  exists wins. split; [assumption |].
  exact (generateForSize_union _ _ _ _ _ _ _ _ _ _ HX HY Hgen).
Qed.

Lemma generate_covers_array_witness :
  exists wins,
    generate (A:=Z) {| shape := [3; 7; 10] |} DimOrder.ChannelHeightWidth 4 (1 # 2)
      [] None None IterOrder.TransformHeightWidth = Ok wins /\
    forall i j,
      (0 <= i < 10 /\ 0 <= j < 7) <->
      (exists win, win ∈ wins /\ contains win i j).
Proof.
  apply (generate_covers_array (A:=Z) 7 10 3 4 (1 # 2) [] None None
           IterOrder.TransformHeightWidth);
    first [by_computation | right; split; reflexivity].
Defined.

(** ** The shape of the offsets along an axis *)

Lemma stepSize_pos (ws : Z) (p : Q) :
  (0 <= p)%Q -> (p < 1)%Q -> 1 <= ws -> 1 <= stepSize ws p <= ws.
Proof.
  intros Hp0 Hp1 Hws. unfold stepSize, floor_mul.
  assert (H0 : (inject_Z 0 <= inject_Z ws * p)%Q).
  { destruct p as [n d]. unfold Qle, Qlt in *. simpl in *. nia. }
  apply Qfloor_resp_le in H0. rewrite Qfloor_Z in H0.
  assert (H1 : (inject_Z ws * p < inject_Z ws)%Q).
  { destruct p as [n d]. unfold Qle, Qlt in *. simpl in *. nia. }
  pose proof (Qfloor_le (inject_Z ws * p)) as Hfl.
  assert (Hlt : (inject_Z (Qfloor (inject_Z ws * p)) < inject_Z ws)%Q)
    by (eapply Qle_lt_trans; eassumption).
  rewrite <- Zlt_Qlt in Hlt. lia.
Qed.

Lemma last_map_seq (f : nat -> Z) (n : nat) (d : Z) :
  List.last (map f (seq 0 (S n))) d = f n.
Proof. rewrite seq_S, map_app. simpl. apply last_last. Qed.

(** For a positive step the offsets are the multiples of the step up to
    the last valid position, followed by that position itself when it is
    not a multiple of the step. *)
Lemma axisOffsets_shape (extent ws : Z) (p : Q) :
  1 <= stepSize ws p -> ws <= extent ->
  axisOffsets extent ws p =
    Ok (map (fun k : nat => 0 + Z.of_nat k * stepSize ws p)
            (seq 0 (S (Z.to_nat ((extent - ws) / stepSize ws p))))
        ++ (if (extent - ws) mod stepSize ws p =? 0 then [] else [extent - ws])).
Proof.
  intros Hs Hle. set (st := stepSize ws p) in *. set (last := extent - ws).
  assert (Hlast : 0 <= last) by (unfold last; lia).
  assert (Hk : 0 <= last / st) by (apply Z.div_pos; lia).
  unfold axisOffsets. fold st last. unfold py_range.
  destruct (Z.eqb_spec st 0); [lia |]. cbn [bind]. f_equal.
  rewrite range_length_up by lia.
  destruct (Z.leb_spec (last + 1) 0); [lia |].
  replace (last + 1 - 0 - 1) with last by lia.
  replace (Z.to_nat (last / st + 1)) with (S (Z.to_nat (last / st))) by lia.
  unfold append_last. rewrite length_map, length_seq, last_map_seq.
  cbn [Nat.eqb orb]. rewrite Z2Nat.id by assumption.
  pose proof (Z.div_mod last st ltac:(lia)) as Hdm.
  destruct (Z.eqb_spec (0 + last / st * st) last) as [E | E];
    destruct (Z.eqb_spec (last mod st) 0) as [E' | E']; cbn [negb];
    try lia.
  - rewrite app_nil_r. reflexivity.
  - reflexivity.
Qed.

Lemma axisOffsets_length (extent ws : Z) (p : Q) (offsets : list Z) :
  1 <= stepSize ws p -> ws <= extent ->
  axisOffsets extent ws p = Ok offsets ->
  Z.of_nat (length offsets) =
    (extent - ws) / stepSize ws p + 1 +
    (if (extent - ws) mod stepSize ws p =? 0 then 0 else 1).
Proof.
  intros Hs Hle Hoff. rewrite axisOffsets_shape in Hoff by assumption.
  ok_subst Hoff.
  assert (0 <= (extent - ws) / stepSize ws p) by (apply Z.div_pos; lia).
  rewrite length_app, length_map, length_seq.
  destruct (_ =? 0); simpl length; lia.
Qed.

(** X5.  The number of offsets along an axis is the number of whole steps
    that fit before the last valid position, plus one, plus one more when
    that position is not a multiple of the step. *)
Theorem axisOffsets_count (extent ws : Z) (p : Q) (offsets : list Z) :
  1 <= stepSize ws p -> ws <= extent ->
  axisOffsets extent ws p = Ok offsets ->
  Z.of_nat (length offsets) =
    (extent - ws) / stepSize ws p + 1 +
    (if (extent - ws) mod stepSize ws p =? 0 then 0 else 1).
Proof. apply axisOffsets_length. Qed.

Lemma axisOffsets_count_witness :
  Z.of_nat (length [0; 6; 12]) =
    (20 - 8) / stepSize 8 (1 # 4) + 1 +
    (if (20 - 8) mod stepSize 8 (1 # 4) =? 0 then 0 else 1).
Proof.
  apply (axisOffsets_count 20 8 (1 # 4) [0; 6; 12]); by_computation.
Defined.

(** X6.  The offsets along an axis start at 0, end at the last valid position
    and increase strictly, each by at most one step: no window is
    generated twice, and the first and the last window touch the two
    borders. *)
Theorem axisOffsets_increasing (extent ws : Z) (p : Q) (offsets : list Z) :
  1 <= stepSize ws p -> ws <= extent ->
  axisOffsets extent ws p = Ok offsets ->
  offsets !! 0%nat = Some 0 /\
  offsets !! (length offsets - 1)%nat = Some (extent - ws) /\
  (forall i a b, offsets !! i = Some a -> offsets !! S i = Some b ->
     a < b <= a + stepSize ws p) /\
  (forall i j a b, (i < j)%nat -> offsets !! i = Some a -> offsets !! j = Some b ->
     a < b).
Proof.
  intros Hs Hle Hoff. rewrite axisOffsets_shape in Hoff by assumption.
  ok_subst Hoff.
  set (st := stepSize ws p) in *. set (last := extent - ws).
  assert (Hlast : 0 <= last) by (unfold last; lia).
  assert (Hk : 0 <= last / st) by (apply Z.div_pos; lia).
  pose proof (Z.div_mod last st ltac:(lia)) as Hdm.
  pose proof (Z.mod_pos_bound last st ltac:(lia)) as Hmod.
  set (n := Z.to_nat (last / st)).
  set (r := map (fun k : nat => 0 + Z.of_nat k * st) (seq 0 (S n))).
  set (tl := if last mod st =? 0 then [] else [last]).
  assert (Hr : forall i, (i <= n)%nat -> r !! i = Some (Z.of_nat i * st)).
  { intros i Hi. unfold r. rewrite list_lookup_fmap, lookup_seq_lt by lia.
    simpl. f_equal. }
  assert (Hrlen : length r = S n) by (unfold r; rewrite length_map, length_seq; lia).
  (* every element, by position *)
  assert (Hat : forall i a, (r ++ tl) !! i = Some a ->
            ((i <= n)%nat /\ a = Z.of_nat i * st) \/
            (i = S n /\ a = last /\ last mod st <> 0)).
  { intros i a Hi. destruct (le_lt_dec i n) as [Hin | Hin].
    - left. rewrite lookup_app_l, Hr in Hi by lia. split; [lia | congruence].
    - right. rewrite lookup_app_r in Hi by lia. rewrite Hrlen in Hi.
      unfold tl in Hi. destruct (Z.eqb_spec (last mod st) 0); [discriminate |].
      destruct (i - S n)%nat as [| m] eqn:Em; [| discriminate].
      injection Hi as <-. repeat split; [lia | assumption]. }
  assert (Hn : Z.of_nat n = last / st) by (unfold n; lia).
  assert (Hmono : forall i j a b, (i < j)%nat ->
            (r ++ tl) !! i = Some a -> (r ++ tl) !! j = Some b -> a < b).
  { intros i j a b Hij Ha Hb.
    destruct (Hat i a Ha) as [[Hi ->] | (-> & -> & Hm)];
      destruct (Hat j b Hb) as [[Hj ->] | (-> & -> & Hm')]; try lia; nia. }
  split; [| split; [| split]].
  - rewrite lookup_app_l, Hr by lia. reflexivity.
  - rewrite length_app, Hrlen. unfold tl.
    destruct (Z.eqb_spec (last mod st) 0) as [E | E]; simpl length.
    + rewrite app_nil_r, Hr by lia. f_equal. nia.
    + rewrite lookup_app_r by lia. rewrite Hrlen.
      replace (S n + 1 - 1 - S n)%nat with 0%nat by lia. reflexivity.
  - intros i a b Ha Hb. split; [apply (Hmono i (S i)); auto |].
    destruct (Hat i a Ha) as [[Hi Ea] | (Hi & Ea & Hm)];
      destruct (Hat (S i) b Hb) as [[Hj Eb] | (Hj & Eb & Hm')];
      subst a b; try lia; nia.
  - exact Hmono.
Qed.

Lemma axisOffsets_increasing_witness :
  [0; 6; 12; 13] !! 0%nat = Some 0 /\
  [0; 6; 12; 13] !! (length [0; 6; 12; 13] - 1)%nat = Some (21 - 8) /\
  (forall i a b, [0; 6; 12; 13] !! i = Some a -> [0; 6; 12; 13] !! S i = Some b ->
     a < b <= a + stepSize 8 (1 # 4)) /\
  (forall i j a b, (i < j)%nat -> [0; 6; 12; 13] !! i = Some a ->
     [0; 6; 12; 13] !! j = Some b -> a < b).
Proof.
  apply (axisOffsets_increasing 21 8 (1 # 4) [0; 6; 12; 13]); by_computation.
Defined.

(** ** The list of windows as a whole *)

(** A window at least as large as the axis leaves one offset, 0. *)
Lemma axisOffsets_oversized (extent requested : Z) (p : Q) :
  extent <= requested ->
  stepSize extent p <> 0 ->
  Z.min requested extent = extent /\ axisOffsets extent extent p = Ok [0].
Proof.
  intros Hle Hs. split; [lia |].
  unfold axisOffsets. rewrite Z.sub_diag. simpl (0 + 1).
  destruct (Z_lt_le_dec (stepSize extent p) 0) as [Hneg | Hpos].
  - rewrite py_range_down_empty by lia. reflexivity.
  - unfold py_range. destruct (Z.eqb_spec (stepSize extent p) 0); [lia |].
    rewrite range_length_up by lia. change (1 <=? 0) with false. cbv iota.
    change (1 - 0 - 1) with 0. rewrite Z.div_0_l by lia. reflexivity.
Qed.

Lemma iterate_dims_single {T : Type} (a b : Z) (ts : list T) (io : list string) :
  supported_iterorder io ->
  iterate_dims [a] [b] ts io = Ok (map (fun t => (a, b, t)) ts).
Proof.
  intros [-> | ->]; unfold iterate_dims; simpl; rewrite !app_nil_r; reflexivity.
Qed.

(** X7.  When the requested window is at least as large as the input on both
    axes it is clipped to the input, and the result is one window over
    the whole input for the identity and one for each transform, in list
    order. *)
Theorem oversized_window_is_clipped {A : Type} (width height : Z)
    (dimOrder : list string) (maxWindowSize : Z) (overlapPercent : Q)
    (transforms : list (option (A -> result A)))
    (overrideWidth overrideHeight : option Z) (iterorder : list string) :
  width <= match overrideWidth with None => maxWindowSize | Some v => v end ->
  height <= match overrideHeight with None => maxWindowSize | Some v => v end ->
  stepSize width overlapPercent <> 0 ->
  stepSize height overlapPercent <> 0 ->
  supported_iterorder iterorder ->
  generateForSize width height dimOrder maxWindowSize overlapPercent transforms
    overrideWidth overrideHeight iterorder =
  Ok (map (fun t => mkWindow 0 0 width height dimOrder t) (None :: transforms)).
Proof.
  intros HwX HwY HsX HsY Hio. rewrite generateForSize_eq. cbv zeta.
  unfold windowSize.
  destruct (axisOffsets_oversized width _ overlapPercent HwX HsX) as [-> ->].
  destruct (axisOffsets_oversized height _ overlapPercent HwY HsY) as [-> ->].
  cbn [bind]. rewrite iterate_dims_single by assumption. cbn [bind].
  rewrite <- list_fmap_compose. reflexivity.
Qed.

Lemma oversized_window_is_clipped_witness :
  generateForSize (A:=Z) 10 10 DimOrder.HeightWidthChannel 50 0
    [Some (fun v => Ok (v + 1))] None None IterOrder.TransformWidthHeight =
  Ok (map (fun t => mkWindow 0 0 10 10 DimOrder.HeightWidthChannel t)
          [None; Some (fun v => Ok (v + 1))]).
Proof.
  apply (oversized_window_is_clipped (A:=Z) 10 10 DimOrder.HeightWidthChannel 50 0
           [Some (fun v => Ok (v + 1))] None None IterOrder.TransformWidthHeight);
    by_computation.
Defined.

(** X8.  Every window of a result has the same size, the requested size
    clipped to the input, carries the dimension order that was passed and
    one of the entries of [[None] + transforms], and sits at a generated
    X-offset and a generated Y-offset. *)
Theorem windows_share_size {A : Type} (width height : Z) (order : list string)
    (maxWindowSize : Z) (overlapPercent : Q)
    (transforms : list (option (A -> result A)))
    (overrideWidth overrideHeight : option Z) (iterorder : list string)
    (wins : list (SlidingWindow A)) (win : SlidingWindow A) :
  generateForSize width height order maxWindowSize overlapPercent transforms
    overrideWidth overrideHeight iterorder = Ok wins ->
  win ∈ wins ->
  w win = Z.min (match overrideWidth with None => maxWindowSize | Some v => v end)
                width /\
  h win = Z.min (match overrideHeight with None => maxWindowSize | Some v => v end)
                height /\
  dimOrder win = order /\
  transform win ∈ None :: transforms /\
  (exists xs ys,
     axisOffsets width (w win) overlapPercent = Ok xs /\
     axisOffsets height (h win) overlapPercent = Ok ys /\
     x win ∈ xs /\ y win ∈ ys).
Proof.
  intros Hgen Hin.
  pose proof (generateForSize_inv _ _ _ _ _ _ _ _ _ _ Hgen)
    as (xs & ys & dims & Hxs & Hys & _ & _).
  pose proof (generateForSize_elem_of width height order maxWindowSize
                overlapPercent transforms overrideWidth overrideHeight
                iterorder wins xs ys win Hgen Hxs Hys) as Hmem.
  cbv zeta in Hmem.
  destruct (proj1 Hmem Hin) as (a & b & t & Ha & Hb & Ht & ->).
  simpl. unfold windowSize in *. repeat split; try assumption.
  exists xs, ys. auto.
Qed.

Lemma windows_share_size_witness :
  w (mkWindow (A:=Z) 6 3 4 4 DimOrder.HeightWidthChannel None) = Z.min 4 10 /\
  h (mkWindow (A:=Z) 6 3 4 4 DimOrder.HeightWidthChannel None) = Z.min 4 7 /\
  dimOrder (mkWindow (A:=Z) 6 3 4 4 DimOrder.HeightWidthChannel None) =
    DimOrder.HeightWidthChannel /\
  transform (mkWindow (A:=Z) 6 3 4 4 DimOrder.HeightWidthChannel None) ∈ [None] /\
  (exists xs ys,
     axisOffsets 10 4 (1 # 2) = Ok xs /\ axisOffsets 7 4 (1 # 2) = Ok ys /\
     6 ∈ xs /\ 3 ∈ ys).
Proof.
  refine (windows_share_size (A:=Z) 10 7 DimOrder.HeightWidthChannel 4 (1 # 2) []
            None None IterOrder.TransformWidthHeight _
            (mkWindow 6 3 4 4 DimOrder.HeightWidthChannel None) eq_refl _).
  vm_compute. repeat first [apply list_elem_of_here | apply list_elem_of_further].
Defined.

Lemma generateForSize_length {A : Type} (width height : Z) (dimOrder : list string)
    (maxWindowSize : Z) (overlapPercent : Q)
    (transforms : list (option (A -> result A)))
    (overrideWidth overrideHeight : option Z) (iterorder : list string)
    (wins : list (SlidingWindow A)) (xs ys : list Z) :
  generateForSize width height dimOrder maxWindowSize overlapPercent transforms
    overrideWidth overrideHeight iterorder = Ok wins ->
  axisOffsets width (windowSize maxWindowSize overrideWidth width)
    overlapPercent = Ok xs ->
  axisOffsets height (windowSize maxWindowSize overrideHeight height)
    overlapPercent = Ok ys ->
  length wins = (length xs * length ys * S (length transforms))%nat.
Proof.
  intros Hgen Hxs Hys.
  apply generateForSize_inv in Hgen as (xs' & ys' & dims & Hx' & Hy' & Hd & ->).
  rewrite Hxs in Hx'. rewrite Hys in Hy'. ok_subst Hx'. ok_subst Hy'.
  rewrite length_map. unfold iterate_dims in Hd.
  set (nt := S (length transforms)).
  assert (Hin : forall (f : Z -> Z -> option (A -> result A) ->
                          Z * Z * option (A -> result A)) l u,
            length (flat_map (fun v => map (f u v) (None :: transforms)) l) =
            (length l * nt)%nat).
  { intros f l u. apply flat_map_uniform_length. intros v.
    rewrite length_map. reflexivity. }
  repeat case_decide; [| | discriminate]; ok_subst Hd.
  - rewrite (flat_map_uniform_length _ (length ys * nt)).
    + lia.
    + intros u. apply (Hin (fun u v t => (u, v, t))).
  - rewrite (flat_map_uniform_length _ (length xs * nt)).
    + lia.
    + intros v. apply (Hin (fun v u t => (u, v, t))).
Qed.

(** X9.  The number of windows is the number of X-offsets times the number of
    Y-offsets times one more than the number of transforms, under either
    iteration order. *)
Theorem window_count {A : Type} (width height : Z) (dimOrder : list string)
    (maxWindowSize : Z) (overlapPercent : Q)
    (transforms : list (option (A -> result A)))
    (overrideWidth overrideHeight : option Z) (iterorder : list string)
    (wins : list (SlidingWindow A)) (xs ys : list Z) :
  generateForSize width height dimOrder maxWindowSize overlapPercent transforms
    overrideWidth overrideHeight iterorder = Ok wins ->
  axisOffsets width (windowSize maxWindowSize overrideWidth width)
    overlapPercent = Ok xs ->
  axisOffsets height (windowSize maxWindowSize overrideHeight height)
    overlapPercent = Ok ys ->
  length wins = (length xs * length ys * S (length transforms))%nat.
Proof. apply generateForSize_length. Qed.

Lemma window_count_witness :
  length (map (fun '(a, b) => mkWindow (A:=Z) a b 4 4 DimOrder.HeightWidthChannel None)
              [(0, 0); (2, 0); (4, 0); (6, 0); (0, 2); (2, 2); (4, 2); (6, 2);
               (0, 3); (2, 3); (4, 3); (6, 3)]) =
  (length [0; 2; 4; 6]%Z * length [0; 2; 3]%Z *
   S (length (@nil (option (Z -> result Z)))))%nat.
Proof.
  apply (window_count (A:=Z) 10 7 DimOrder.HeightWidthChannel 4 (1 # 2) []
           None None IterOrder.TransformWidthHeight); reflexivity.
Defined.

(** ** The two iteration orders *)

Lemma flat_map_app_Permutation {X Y : Type} (g k : X -> list Y) (l : list X) :
  flat_map (fun a => g a ++ k a) l ≡ₚ flat_map g l ++ flat_map k l.
Proof.
  induction l as [| a l IH]; simpl; [reflexivity |].
  rewrite IH. rewrite <- !app_assoc. apply Permutation_app_head.
  rewrite !app_assoc. apply Permutation_app_tail. apply Permutation_app_comm.
Qed.

Lemma flat_map_nil_const {X Y : Type} (l : list X) :
  flat_map (fun _ : X => @nil Y) l = [].
Proof. induction l; simpl; auto. Qed.

(** Swapping two nested loops permutes what they produce. *)
Lemma flat_map_swap_Permutation {X Y W : Type} (f : X -> Y -> list W)
    (xs : list X) (ys : list Y) :
  flat_map (fun a => flat_map (fun b => f a b) ys) xs ≡ₚ
  flat_map (fun b => flat_map (fun a => f a b) xs) ys.
Proof.
  induction xs as [| a xs IH]; simpl.
  - rewrite flat_map_nil_const. reflexivity.
  - rewrite IH. symmetry.
    apply (flat_map_app_Permutation (fun b => f a b)
             (fun b => flat_map (fun a0 => f a0 b) xs)).
Qed.

(** X10.  The iteration order decides in which sequence the windows come, not
    which windows: the results under the two orders are permutations of
    each other. *)
Theorem iteration_orders_same_windows {A : Type} (width height : Z)
    (dimOrder : list string) (maxWindowSize : Z) (overlapPercent : Q)
    (transforms : list (option (A -> result A)))
    (overrideWidth overrideHeight : option Z) (wins : list (SlidingWindow A)) :
  generateForSize width height dimOrder maxWindowSize overlapPercent transforms
    overrideWidth overrideHeight IterOrder.TransformHeightWidth = Ok wins ->
  exists wins',
    generateForSize width height dimOrder maxWindowSize overlapPercent transforms
      overrideWidth overrideHeight IterOrder.TransformWidthHeight = Ok wins' /\
    wins ≡ₚ wins'.
Proof.
  rewrite !generateForSize_eq. cbv zeta.
  destruct (axisOffsets width _ overlapPercent) as [xs | e]; [| discriminate].
  destruct (axisOffsets height _ overlapPercent) as [ys | e]; [| discriminate].
  cbn [bind]. unfold iterate_dims.
  rewrite decide_True by reflexivity.
  rewrite (decide_False (P := IterOrder.TransformWidthHeight =
                              IterOrder.TransformHeightWidth)) by discriminate.
  rewrite decide_True by reflexivity. cbn [bind].
  intros H. ok_subst H. eexists. split; [reflexivity |].
  apply fmap_Permutation.
  apply (flat_map_swap_Permutation
           (fun a b => map (fun t => (a, b, t)) (None :: transforms))).
Qed.

Lemma iteration_orders_same_windows_witness :
  exists wins',
    generateForSize (A:=Z) 10 7 DimOrder.HeightWidthChannel 4 0 [] None None
      IterOrder.TransformWidthHeight = Ok wins' /\
    map (fun '(a, b) => mkWindow (A:=Z) a b 4 4 DimOrder.HeightWidthChannel None)
        [(0, 0); (0, 3); (4, 0); (4, 3); (6, 0); (6, 3)] ≡ₚ wins'.
Proof.
  apply (iteration_orders_same_windows (A:=Z) 10 7 DimOrder.HeightWidthChannel
           4 0 [] None None).
  reflexivity.
Defined.

(** ** The dimension order of generated windows *)

Lemma indices_supported {A : Type} (win : SlidingWindow A) (includeChannel : bool) :
  supported_dimorder (dimOrder win) ->
  exists idx, indices win includeChannel = Ok idx /\
              (length idx = 2 \/ length idx = 3)%nat.
Proof.
  intros [H | H]; unfold indices; rewrite H; simpl.
  - eauto.
  - destruct includeChannel; eauto.
Qed.

(** X11.  [generateForSize] does not look at the dimension order: whether it
    returns windows does not depend on it, and the windows only carry it
    along.  An order outside the enumeration shows when a window is
    used: then [indices] and [apply] of every window raise; for the two
    orders of the enumeration [indices] of a generated window never
    fails. *)
Theorem dimOrder_checked_on_use {A : Type} (width height : Z)
    (order : list string) (maxWindowSize : Z) (overlapPercent : Q)
    (transforms : list (option (A -> result A)))
    (overrideWidth overrideHeight : option Z) (iterorder : list string)
    (wins : list (SlidingWindow A)) :
  generateForSize width height order maxWindowSize overlapPercent transforms
    overrideWidth overrideHeight iterorder = Ok wins ->
  (forall order',
     generateForSize width height order' maxWindowSize overlapPercent transforms
       overrideWidth overrideHeight iterorder =
     Ok (map (fun win => mkWindow (x win) (y win) (w win) (h win) order'
                           (transform win)) wins)) /\
  (supported_dimorder order ->
   forall win b, win ∈ wins -> exists idx, indices win b = Ok idx) /\
  (~ supported_dimorder order ->
   forall win b, win ∈ wins ->
     indices win b = Raise (NameError "Error") /\
     forall (getitem : A -> list slice -> result A) (matrix : A),
       apply getitem win matrix = Raise (NameError "Error")).
Proof.
  intros Hgen.
  pose proof (generateForSize_inv _ _ _ _ _ _ _ _ _ _ Hgen)
    as (xs & ys & dims & Hxs & Hys & Hd & Hw).
  assert (Hord : forall win, win ∈ wins -> dimOrder win = order).
  { intros win Hin. rewrite Hw in Hin. apply list_elem_of_fmap in Hin
      as ([[a b] t] & -> & _). reflexivity. }
  split; [| split].
  - intros order'. rewrite generateForSize_eq. cbv zeta.
    rewrite Hxs, Hys. cbn [bind]. rewrite Hd. cbn [bind]. f_equal.
    rewrite Hw, <- list_fmap_compose. apply list_fmap_ext.
    intros i [[a b] t] _. reflexivity.
  - intros Hs win b Hin.
    destruct (indices_supported win b) as (idx & Hi & _).
    + rewrite (Hord win Hin). exact Hs.
    + eauto.
  - intros Hs win b Hin.
    assert (Hu : ~ supported_dimorder (dimOrder win))
      by (rewrite (Hord win Hin); exact Hs).
    split; [apply indices_unsupported; exact Hu |].
    intros getitem matrix. unfold apply.
    rewrite indices_unsupported by exact Hu. reflexivity.
Qed.

Lemma dimOrder_checked_on_use_witness :
  indices (mkWindow (A:=Z) 0 0 5 5 ["w"; "h"]%string None) true =
    Raise (NameError "Error") /\
  forall (getitem : Z -> list slice -> result Z) (matrix : Z),
    apply getitem (mkWindow (A:=Z) 0 0 5 5 ["w"; "h"]%string None) matrix =
      Raise (NameError "Error").
Proof.
  refine (proj2 (proj2 (dimOrder_checked_on_use (A:=Z) 10 10 ["w"; "h"]%string
            5 0 [] None None IterOrder.TransformWidthHeight _ eq_refl)) _
            (mkWindow 0 0 5 5 ["w"; "h"]%string None) true _).
  - unfold supported_dimorder. intros [H | H]; discriminate.
  - apply list_elem_of_here.
Defined.

(** ** Layout by number of windows, continued *)

Lemma floor_mul_no_overlap (ws : Z) : floor_mul ws 0 = 0.
Proof.
  unfold floor_mul, Qfloor. simpl. rewrite Z.mul_0_r. reflexivity.
Qed.

Lemma stepSize_no_overlap (ws : Z) : stepSize ws 0 = ws.
Proof. unfold stepSize. rewrite floor_mul_no_overlap. lia. Qed.

(** Without overlap, a window of [ws] pixels with [extent <= ws * count]
    gives at most [count] offsets, and exactly [count] when
    [ws * count = extent]. *)
Lemma count_offsets_bound (extent count ws : Z) (offsets : list Z) :
  1 <= extent -> 1 <= count ->
  extent <= ws * count ->
  axisOffsets extent (windowSize 0 (Some ws) extent) 0 = Ok offsets ->
  1 <= Z.of_nat (length offsets) <= count /\
  (ws * count = extent -> Z.of_nat (length offsets) = count).
Proof.
  intros He Hc Hceil Hoff.
  assert (Hws1 : 1 <= ws) by nia.
  unfold windowSize in Hoff.
  set (c := Z.min ws extent) in *.
  assert (Hc1 : 1 <= c <= extent) by (unfold c; lia).
  pose proof (axisOffsets_length extent c 0 offsets) as Hlen.
  rewrite stepSize_no_overlap in Hlen. specialize (Hlen ltac:(lia) ltac:(lia) Hoff).
  rewrite Hlen. clear Hlen Hoff.
  pose proof (Z.div_mod (extent - c) c ltac:(lia)) as Hdm.
  pose proof (Z.mod_pos_bound (extent - c) c ltac:(lia)) as Hmod.
  assert (Hq : 0 <= (extent - c) / c) by (apply Z.div_pos; lia).
  split.
  - destruct (Z.le_gt_cases ws extent) as [Hle | Hgt].
    + assert (Ec : c = ws) by (unfold c; lia). rewrite Ec in *.
      destruct (Z.eqb_spec ((extent - ws) mod ws) 0) as [E | E]; nia.
    + assert (Ec : c = extent) by (unfold c; lia). rewrite Ec in *.
      rewrite Z.sub_diag in *. rewrite Z.div_0_l, Z.mod_0_l by lia.
      simpl. lia.
  - intros Hexact.
    assert (Ec : c = ws) by (unfold c; nia). rewrite Ec in *.
    assert (Eq : (extent - ws) / ws = count - 1).
    { symmetry. apply Z.div_unique with (r := 0); nia. }
    assert (Er : (extent - ws) mod ws = 0).
    { symmetry. apply Z.mod_unique with (q := count - 1); nia. }
    rewrite Eq, Er. simpl. lia.
Qed.

(** The float quotient can fall short of the exact one, and then more
    windows come back than were asked for: one window is asked for on a
    width of 2^53 + 1, the derived window width is 2^53, and two windows
    are returned. *)
Lemma count_exceeded_by_rounding :
  generateForNumberOfWindows (A:=Z) {| shape := [1; 2 ^ 53 + 1; 1] |}
    DimOrder.HeightWidthChannel (1, 1) 0 [] IterOrder.TransformWidthHeight =
  Ok [ mkWindow 0 0 (2 ^ 53) 1 DimOrder.HeightWidthChannel None;
       mkWindow 1 0 (2 ^ 53) 1 DimOrder.HeightWidthChannel None ].
Proof. vm_compute. reflexivity. Qed.

(** X12.  With no overlap, for a width and a height of at least 1 and
    counts of at least 1, all below 2^53, [generateForNumberOfWindows]
    never returns more windows than were asked for: at most countX *
    countY of them for the identity and for each transform, and exactly
    that many when countX divides the width and countY divides the
    height. *)
Theorem window_count_requested {A : Type} (data : ndarray) (dimOrder : list string)
    (countY countX : Z) (transforms : list (option (A -> result A)))
    (iterorder : list string) (width height : Z) :
  shape_dimensions data dimOrder = Ok (width, height) ->
  1 <= width < 2 ^ 53 -> 1 <= height < 2 ^ 53 ->
  1 <= countX < 2 ^ 53 -> 1 <= countY < 2 ^ 53 ->
  supported_iterorder iterorder ->
  exists wins,
    generateForNumberOfWindows data dimOrder (countY, countX) 0 transforms
      iterorder = Ok wins /\
    1 <= Z.of_nat (length wins) <=
      countX * countY * (1 + Z.of_nat (length transforms)) /\
    (width mod countX = 0 -> height mod countY = 0 ->
     Z.of_nat (length wins) =
       countX * countY * (1 + Z.of_nat (length transforms))).
Proof.
  intros Hdim Hw Hh Hcx Hcy Hio.
  rewrite generateForNumberOfWindows_shape_dimensions, Hdim. cbn [bind fst snd].
  rewrite (ceil_div_exact width countX) by lia. cbn [bind].
  rewrite (ceil_div_exact height countY) by lia. cbn [bind].
  pose proof (exact_ceil_div_spec width countX ltac:(lia)) as HcX.
  pose proof (exact_ceil_div_spec height countY ltac:(lia)) as HcY.
  set (wsX := exact_ceil_div width countX) in *.
  set (wsY := exact_ceil_div height countY) in *.
  assert (HX : 1 <= wsX) by nia.
  assert (HY : 1 <= wsY) by nia.
  assert (HsX : stepSize (windowSize 0 (Some wsX) width) 0 <> 0)
    by (rewrite stepSize_no_overlap; unfold windowSize; lia).
  assert (HsY : stepSize (windowSize 0 (Some wsY) height) 0 <> 0)
    by (rewrite stepSize_no_overlap; unfold windowSize; lia).
  destruct (generateForSize_ok width height dimOrder 0 0 transforms
              (Some wsX) (Some wsY) iterorder HsX HsY Hio) as [wins Hgen].
  exists wins. split; [exact Hgen |].
  destruct (axisOffsets_ok width _ 0 HsX) as (xs & _ & _ & _ & Hxs).
  destruct (axisOffsets_ok height _ 0 HsY) as (ys & _ & _ & _ & Hys).
  rewrite (generateForSize_length _ _ _ _ _ _ _ _ _ wins xs ys Hgen Hxs Hys).
  destruct (count_offsets_bound width countX wsX xs ltac:(lia) ltac:(lia)
              ltac:(lia) Hxs) as [Bx Ex].
  destruct (count_offsets_bound height countY wsY ys ltac:(lia) ltac:(lia)
              ltac:(lia) Hys) as [By Ey].
  rewrite !Nat2Z.inj_mul, Nat2Z.inj_succ.
  set (X := Z.of_nat (length xs)) in *. set (Y := Z.of_nat (length ys)) in *.
  assert (HT : 0 <= Z.of_nat (length transforms)) by lia.
  set (T := Z.of_nat (length transforms)) in *.
  assert (HXY : 1 <= X * Y <= countX * countY) by nia.
  split; [nia |]. intros Dx Dy.
  pose proof (Z.div_mod width countX ltac:(lia)) as Hdx. rewrite Dx in Hdx.
  pose proof (Z.div_mod height countY ltac:(lia)) as Hdy. rewrite Dy in Hdy.
  assert (Ewx : wsX * countX = width).
  { assert (1 <= countX) by lia. clear - HcX Hdx H.
    set (k := width / countX) in *.
    assert (wsX - 1 < k) by nia. assert (k <= wsX) by nia. nia. }
  assert (Ewy : wsY * countY = height).
  { assert (1 <= countY) by lia. clear - HcY Hdy H.
    set (k := height / countY) in *.
    assert (wsY - 1 < k) by nia. assert (k <= wsY) by nia. nia. }
  rewrite (Ex Ewx), (Ey Ewy). lia.
Qed.

Lemma window_count_requested_witness :
  exists wins,
    generateForNumberOfWindows (A:=Z) {| shape := [50; 100; 3] |}
      DimOrder.HeightWidthChannel (4, 6) 0 [] IterOrder.TransformWidthHeight
      = Ok wins /\
    1 <= Z.of_nat (length wins) <= 6 * 4 * (1 + Z.of_nat (length (@nil (option (Z -> result Z))))) /\
    (100 mod 6 = 0 -> 50 mod 4 = 0 ->
     Z.of_nat (length wins) = 6 * 4 * (1 + Z.of_nat (length (@nil (option (Z -> result Z)))))).
Proof.
  apply (window_count_requested (A:=Z) {| shape := [50; 100; 3] |}
           DimOrder.HeightWidthChannel 4 6 [] IterOrder.TransformWidthHeight
           100 50); first [ by_computation | split; [lia | reflexivity] ].
Defined.

Lemma generateForSize_raise {A : Type} (width height : Z) (dimOrder : list string)
    (maxWindowSize : Z) (p : Q) (transforms : list (option (A -> result A)))
    (overrideWidth overrideHeight : option Z) (io : list string) (e : PyExn) :
  generateForSize width height dimOrder maxWindowSize p transforms
    overrideWidth overrideHeight io = Raise e ->
  e = ValueError "range() arg 3 must not be zero" \/ e = NameError "Error".
Proof.
  unfold generateForSize. cbv zeta. unfold py_range, iterate_dims.
  repeat match goal with
         | |- context [if ?b then _ else _] => destruct b; cbn [bind]
         end;
    intros H; try discriminate; injection H as <-; auto.
Qed.

(** X13.  Once the dimensions are read, [generateForNumberOfWindows] raises
    [ZeroDivisionError] exactly when countX is 0, or countY is 0 and the
    window width math.ceil(width / countX) is computed without an error
    (the width is derived first, and a float quotient that overflows
    raises [OverflowError] before countY is looked at); negative counts
    are not rejected. *)
Theorem zero_count_raises {A : Type} (data : ndarray) (dimOrder : list string)
    (countY countX : Z) (overlapPercent : Q)
    (transforms : list (option (A -> result A))) (iterorder : list string)
    (width height : Z) :
  shape_dimensions data dimOrder = Ok (width, height) ->
  generateForNumberOfWindows data dimOrder (countY, countX) overlapPercent
    transforms iterorder = Raise ZeroDivisionError <->
  countX = 0 \/ (countY = 0 /\ exists windowSizeX, ceil_div width countX = Ok windowSizeX).
Proof.
  intros Hdim.
  rewrite generateForNumberOfWindows_shape_dimensions, Hdim. cbn [bind fst snd].
  destruct (ceil_div width countX) as [wsX | ex] eqn:HwsX; cbn [bind].
  - assert (Hx : countX <> 0).
    { intros ->. rewrite ceil_div_by_zero in HwsX. discriminate. }
    destruct (ceil_div height countY) as [wsY | ey] eqn:HwsY; cbn [bind].
    + split.
      * intros H. apply generateForSize_raise in H as [H | H]; discriminate.
      * intros [E | [E _]]; [contradiction |]. subst countY.
        rewrite ceil_div_by_zero in HwsY. discriminate.
    + split.
      * intros H. injection H as ->.
        apply ceil_div_ZeroDivisionError in HwsY. right. split; [exact HwsY |].
        exists wsX. reflexivity.
      * intros [E | [E _]]; [contradiction |]. subst countY.
        rewrite ceil_div_by_zero in HwsY. injection HwsY as <-. reflexivity.
  - split.
    + intros H. injection H as ->.
      apply ceil_div_ZeroDivisionError in HwsX. left. exact HwsX.
    + intros [E | [_ [ws Hws]]]; [| discriminate].
      subst countX. rewrite ceil_div_by_zero in HwsX. injection HwsX as <-.
      reflexivity.
Qed.

Lemma zero_count_raises_witness :
  generateForNumberOfWindows (A:=Z) {| shape := [50; 100; 3] |}
    DimOrder.HeightWidthChannel (0, 3) (1 # 2) []
    IterOrder.TransformWidthHeight = Raise ZeroDivisionError.
Proof.
  apply (proj2 (zero_count_raises (A:=Z) {| shape := [50; 100; 3] |}
           DimOrder.HeightWidthChannel 0 3 (1 # 2) []
           IterOrder.TransformWidthHeight 100 50 eq_refl)).
  right. split; [reflexivity | exists 34; reflexivity].
Defined.

(** ** Tiling without overlap *)

(** Without overlap, when the window size divides the extent, every
    offset is a multiple of the window size. *)
Lemma axisOffsets_no_overlap_multiple (extent ws : Z) (offsets : list Z) (v : Z) :
  1 <= ws <= extent -> extent mod ws = 0 ->
  axisOffsets extent ws 0 = Ok offsets -> v ∈ offsets ->
  exists k, v = k * ws.
Proof.
  intros Hws Hdiv Hoff Hv.
  assert (Hs : stepSize ws 0 <> 0) by (rewrite stepSize_no_overlap; lia).
  destruct (axisOffsets_ok extent ws 0 Hs) as (l & r & Hr & -> & Hl).
  rewrite Hoff in Hl. ok_subst Hl.
  rewrite stepSize_no_overlap in Hr.
  apply elem_of_append_last in Hv as [Hv | ->].
  - apply (py_range_elem_of 0 _ ws r v ltac:(lia) Hr) in Hv
      as (k & _ & _ & ->). exists k. lia.
  - exists (extent / ws - 1).
    pose proof (Z.div_mod extent ws ltac:(lia)) as Hdm. nia.
Qed.

(** X14.  With no overlap and a window size that divides the width and the
    height, the windows tile the input: every pixel lies under exactly
    one position (x, y), the one of the tile it belongs to. *)
Theorem no_overlap_tiles {A : Type} (width height : Z) (dimOrder : list string)
    (maxWindowSize : Z) (transforms : list (option (A -> result A)))
    (overrideWidth overrideHeight : option Z) (iterorder : list string)
    (wins : list (SlidingWindow A)) :
  let wsX := windowSize maxWindowSize overrideWidth width in
  let wsY := windowSize maxWindowSize overrideHeight height in
  1 <= wsX -> 1 <= wsY -> width mod wsX = 0 -> height mod wsY = 0 ->
  generateForSize width height dimOrder maxWindowSize 0 transforms
    overrideWidth overrideHeight iterorder = Ok wins ->
  forall i j, 0 <= i < width -> 0 <= j < height ->
    (exists win, win ∈ wins /\ contains win i j) /\
    (forall win, win ∈ wins -> contains win i j ->
       x win = i / wsX * wsX /\ y win = j / wsY * wsY).
Proof.
  intros wsX wsY HwX HwY HdX HdY Hgen i j Hi Hj.
  assert (HleX : wsX <= width) by (unfold wsX, windowSize; lia).
  assert (HleY : wsY <= height) by (unfold wsY, windowSize; lia).
  split.
  - assert (HsX : 1 <= stepSize wsX 0 <= wsX)
      by (rewrite stepSize_no_overlap; lia).
    assert (HsY : 1 <= stepSize wsY 0 <= wsY)
      by (rewrite stepSize_no_overlap; lia).
    apply (generateForSize_union width height dimOrder maxWindowSize 0 transforms
             overrideWidth overrideHeight iterorder wins HsX HsY Hgen i j).
    tauto.
  - intros win Hin [Hcx Hcy].
    pose proof (generateForSize_inv _ _ _ _ _ _ _ _ _ _ Hgen)
      as (xs & ys & dims & Hxs & Hys & _ & _).
    pose proof (generateForSize_elem_of width height dimOrder maxWindowSize
                  0 transforms overrideWidth overrideHeight
                  iterorder wins xs ys win Hgen Hxs Hys) as Hmem.
    cbv zeta in Hmem. fold wsX wsY in Hmem, Hxs, Hys.
    destruct (proj1 Hmem Hin) as (a & b & t & Ha & Hb & _ & ->).
    cbn [x y w h] in *.
    destruct (axisOffsets_no_overlap_multiple width wsX xs a
                ltac:(lia) HdX Hxs Ha) as [ka ->].
    destruct (axisOffsets_no_overlap_multiple height wsY ys b
                ltac:(lia) HdY Hys Hb) as [kb ->].
    split; f_equal.
    + apply Z.div_unique_pos with (r := i - ka * wsX); lia.
    + apply Z.div_unique_pos with (r := j - kb * wsY); lia.
Qed.

Lemma no_overlap_tiles_witness :
  (exists win, win ∈ map (fun '(a, b) => mkWindow (A:=Z) a b 4 4
                            DimOrder.HeightWidthChannel None)
                   [(0, 0); (4, 0); (8, 0); (0, 4); (4, 4); (8, 4)] /\
               contains win 5 6) /\
  (forall win, win ∈ map (fun '(a, b) => mkWindow (A:=Z) a b 4 4
                            DimOrder.HeightWidthChannel None)
                   [(0, 0); (4, 0); (8, 0); (0, 4); (4, 4); (8, 4)] ->
     contains win 5 6 -> x win = 5 / 4 * 4 /\ y win = 6 / 4 * 4).
Proof.
  apply (no_overlap_tiles (A:=Z) 12 8 DimOrder.HeightWidthChannel 4 [] None None
           IterOrder.TransformWidthHeight); by_computation.
Defined.

(** ** Rectangular windows *)

(** X15.  [generateRectanglarWindows] takes the window shape as (height,
    width): it returns what [generate] returns when the two are passed as
    the overriding height and width, whatever the maximal window size,
    and every window it returns is as wide as the second component and
    as high as the first, clipped to the input. *)
Theorem rectangular_windows_shape {A : Type} (data : ndarray) (order : list string)
    (windowHeight windowWidth : Z) (overlapPercent : Q)
    (transforms : list (option (A -> result A))) (iterorder : list string) :
  (forall maxWindowSize,
     generateRectanglarWindows data order (windowHeight, windowWidth)
       overlapPercent transforms iterorder =
     generate data order maxWindowSize overlapPercent transforms
       (Some windowWidth) (Some windowHeight) iterorder) /\
  (forall width height wins win,
     shape_dimensions data order = Ok (width, height) ->
     generateRectanglarWindows data order (windowHeight, windowWidth)
       overlapPercent transforms iterorder = Ok wins ->
     win ∈ wins ->
     w win = Z.min windowWidth width /\ h win = Z.min windowHeight height).
Proof.
  split.
  - intros m. rewrite generateRectanglarWindows_shape_dimensions,
      generate_shape_dimensions.
    destruct (shape_dimensions data order) as [[width height] | e]; reflexivity.
  - intros width height wins win Hdim Hgen Hin.
    rewrite generateRectanglarWindows_shape_dimensions, Hdim in Hgen.
    cbn [bind fst snd] in Hgen.
    pose proof (generateForSize_inv _ _ _ _ _ _ _ _ _ _ Hgen)
      as (xs & ys & dims & _ & _ & _ & Hw).
    rewrite Hw in Hin. apply list_elem_of_fmap in Hin as ([[a b] t] & -> & _).
    split; reflexivity.
Qed.

Lemma rectangular_windows_shape_witness :
  w (mkWindow (A:=Z) 0 0 8 5 DimOrder.HeightWidthChannel None) = Z.min 8 20 /\
  h (mkWindow (A:=Z) 0 0 8 5 DimOrder.HeightWidthChannel None) = Z.min 5 10.
Proof.
  refine (proj2 (rectangular_windows_shape (A:=Z) {| shape := [10; 20; 3] |}
            DimOrder.HeightWidthChannel 5 8 0 [] IterOrder.TransformWidthHeight)
            20 10 _ (mkWindow 0 0 8 5 DimOrder.HeightWidthChannel None)
            eq_refl eq_refl _).
  apply list_elem_of_here.
Defined.

(** ** The list a call returns *)

(** The list that a call returns was allocated by the call. *)
Lemma generateForSize_st_fresh {A : Type} (defaults : nat) (width height : Z)
    (dimOrder : list string) (maxWindowSize : Z) (overlapPercent : Q)
    (transforms : option nat) (overrideWidth overrideHeight : option Z)
    (iterorder : list string) (s : gmap nat (pyobj A))
    (ts : list (option (A -> result A))) (r : nat) :
  s !! (match transforms with None => defaults | Some r => r end) =
    Some (TransformList ts) ->
  let run := generateForSize_st defaults width height dimOrder maxWindowSize
               overlapPercent transforms overrideWidth overrideHeight
               iterorder s in
  fst run = Ok r ->
  (r ∉ dom s) /\ exists wins, snd run !! r = Some (WindowList wins).
Proof.
  set (tr := match transforms with None => defaults | Some r => r end).
  intros Htr. unfold generateForSize_st. fold tr. cbv zeta.
  set (wsX := Z.min _ width). set (wsY := Z.min _ height).
  destruct (py_range 0 (width - wsX + 1) _) as [rangeX | e];
    [| rewrite bindM_lift_raise; discriminate].
  rewrite bindM_lift_ok, bindM_alloc.
  set (rx := fresh (dom s)).
  assert (Hrx : rx ∉ dom s) by apply is_fresh.
  destruct (py_range 0 (height - wsY + 1) _) as [rangeY | e];
    [| rewrite bindM_lift_raise; discriminate].
  rewrite bindM_lift_ok, bindM_alloc.
  set (s1 := <[rx := IntList rangeX]> s).
  set (ry := fresh (dom s1)).
  assert (Hry : ry ∉ dom s1) by apply is_fresh.
  unfold s1 in Hry. rewrite dom_insert_L in Hry.
  assert (Hryx : ry <> rx) by set_solver.
  assert (Hrys : ry ∉ dom s) by set_solver.
  rewrite (bindM_append_last_st rx rangeX)
    by (rewrite lookup_insert_ne by congruence; apply lookup_insert_eq).
  set (xs := append_last rangeX (width - wsX)).
  rewrite (bindM_append_last_st ry rangeY)
    by (rewrite lookup_insert_ne by congruence; apply lookup_insert_eq).
  set (ys := append_last rangeY (height - wsY)).
  set (s2 := <[ry := IntList ys]> (<[rx := IntList xs]>
               (<[ry := IntList rangeY]> s1))).
  assert (Hs2x : s2 !! rx = Some (IntList xs)).
  { unfold s2. rewrite lookup_insert_ne by congruence. apply lookup_insert_eq. }
  assert (Hs2y : s2 !! ry = Some (IntList ys)) by apply lookup_insert_eq.
  assert (Hs2t : s2 !! tr = Some (TransformList ts)).
  { assert (tr <> rx).
    { intros E. apply Hrx. rewrite <- E. apply elem_of_dom. eauto. }
    assert (tr <> ry).
    { intros E. apply Hrys. rewrite <- E. apply elem_of_dom. eauto. }
    unfold s2, s1. rewrite !lookup_insert_ne by congruence. exact Htr. }
  assert (Hs2 : unchanged s s2).
  { unfold s2, s1. repeat apply unchanged_insert; try assumption.
    apply unchanged_refl. }
  rewrite bindM_alloc.
  set (rw := fresh (dom s2)).
  assert (Hrw : s2 !! rw = None) by apply fresh_lookup.
  assert (Hrws : rw ∉ dom s) by (apply unchanged_fresh; assumption).
  set (s3 := <[rw := WindowList []]> s2).
  assert (Hs3o : forall l o, s2 !! l = Some o -> s3 !! l = Some o).
  { intros l o Hl. unfold s3. rewrite lookup_insert_ne; [assumption |].
    intros <-. congruence. }
  rewrite (bindM_read_transforms tr ts) by (apply Hs3o; assumption).
  rewrite bindM_alloc.
  set (rt := fresh (dom s3)).
  assert (Hrt : s3 !! rt = None) by apply fresh_lookup.
  set (s4 := <[rt := TransformList (None :: ts)]> s3).
  assert (Hs4o : forall l o, s3 !! l = Some o -> s4 !! l = Some o).
  { intros l o Hl. unfold s4. rewrite lookup_insert_ne; [assumption |].
    intros <-. congruence. }
  rewrite (bindM_read_ints rx xs) by (apply Hs4o, Hs3o; assumption).
  rewrite (bindM_read_ints ry ys) by (apply Hs4o, Hs3o; assumption).
  rewrite (bindM_read_transforms rt (None :: ts)) by apply lookup_insert_eq.
  destruct (iterate_dims xs ys (None :: ts) iterorder) as [dims | e];
    [| rewrite bindM_lift_raise; discriminate].
  rewrite bindM_lift_ok.
  set (g := fun '(xOffset, yOffset, t) =>
              mkWindow (A:=A) xOffset yOffset wsX wsY dimOrder t).
  assert (Hloop : forall k : unit -> M A nat,
             bindM (for_each dims
                      (fun '(xOffset, yOffset, t) =>
                         append_window rw
                           (mkWindow xOffset yOffset wsX wsY dimOrder t))) k s4 =
             k tt (<[rw := WindowList (map g dims)]> s4)).
  { intros k. unfold bindM.
    rewrite (for_each_append_window _ g rw dims) with (l0 := []);
      [reflexivity | intros [[a b] t]; reflexivity
      | apply Hs4o, lookup_insert_eq ]. }
  rewrite Hloop. unfold ret. cbn [fst snd].
  intros [= <-]. split; [exact Hrws |].
  exists (map g dims). apply lookup_insert_eq.
Qed.

(** X16.  A call returns a list object that did not exist before the call; a
    later call, with whatever arguments, leaves that list as it is and
    returns another object.  So the caller may keep and change a result
    without affecting any other. *)
Theorem returned_list_is_new {A : Type} (defaults : nat) (width height : Z)
    (dimOrder : list string) (maxWindowSize : Z) (overlapPercent : Q)
    (transforms : option nat) (overrideWidth overrideHeight : option Z)
    (iterorder : list string) (s : gmap nat (pyobj A))
    (ts : list (option (A -> result A))) (r1 : nat) :
  s !! (match transforms with None => defaults | Some r => r end) =
    Some (TransformList ts) ->
  let run1 := generateForSize_st defaults width height dimOrder maxWindowSize
                overlapPercent transforms overrideWidth overrideHeight
                iterorder s in
  fst run1 = Ok r1 ->
  (r1 ∉ dom s) /\
  (exists wins, snd run1 !! r1 = Some (WindowList wins)) /\
  (forall width' height' dimOrder' maxWindowSize' overlapPercent' transforms'
          overrideWidth' overrideHeight' iterorder' ts',
     snd run1 !! (match transforms' with None => defaults | Some r => r end) =
       Some (TransformList ts') ->
     let run2 := generateForSize_st defaults width' height' dimOrder'
                   maxWindowSize' overlapPercent' transforms' overrideWidth'
                   overrideHeight' iterorder' (snd run1) in
     snd run2 !! r1 = snd run1 !! r1 /\
     (forall r2, fst run2 = Ok r2 -> r2 <> r1)).
Proof.
  intros Htr run1 Hr1.
  destruct (generateForSize_st_fresh defaults width height dimOrder maxWindowSize
              overlapPercent transforms overrideWidth overrideHeight iterorder
              s ts r1 Htr Hr1) as [Hfresh [wins Hwins]].
  fold run1 in Hwins.
  split; [exact Hfresh |]. split; [eauto |].
  intros width' height' dimOrder' maxWindowSize' overlapPercent' transforms'
         overrideWidth' overrideHeight' iterorder' ts' Htr' run2.
  assert (Hdom : r1 ∈ dom (snd run1)) by (apply elem_of_dom; eauto).
  split.
  - destruct (generateForSize_st_spec defaults width' height' dimOrder'
                maxWindowSize' overlapPercent' transforms' overrideWidth'
                overrideHeight' iterorder' (snd run1) ts' Htr') as [Hu _].
    apply Hu. exact Hdom.
  - intros r2 Hr2 ->.
    destruct (generateForSize_st_fresh defaults width' height' dimOrder'
                maxWindowSize' overlapPercent' transforms' overrideWidth'
                overrideHeight' iterorder' (snd run1) ts' r1 Htr' Hr2)
      as [Hn _].
    contradiction.
Qed.

Lemma returned_list_is_new_witness :
  let s : gmap nat (pyobj Z) := {[ 0%nat := TransformList [] ]} in
  let run1 := generateForSize_st 0 10 10 DimOrder.HeightWidthChannel 5 0
                None None None IterOrder.TransformWidthHeight s in
  (3%nat ∉ dom s) /\
  (exists wins, snd run1 !! 3%nat = Some (WindowList wins)) /\
  (forall width' height' dimOrder' maxWindowSize' overlapPercent' transforms'
          overrideWidth' overrideHeight' iterorder' ts',
     snd run1 !! (match transforms' with None => 0%nat | Some r => r end) =
       Some (TransformList ts') ->
     let run2 := generateForSize_st 0 width' height' dimOrder'
                   maxWindowSize' overlapPercent' transforms' overrideWidth'
                   overrideHeight' iterorder' (snd run1) in
     snd run2 !! 3%nat = snd run1 !! 3%nat /\
     (forall r2, fst run2 = Ok r2 -> r2 <> 3%nat)).
Proof.
  intros s run1.
  apply (returned_list_is_new (A:=Z) 0 10 10 DimOrder.HeightWidthChannel 5 0
           None None None IterOrder.TransformWidthHeight s [] 3%nat).
  - apply lookup_singleton_eq.
  - vm_compute. reflexivity.
Defined.

(** ** The cross product and its first element *)

(** X17.  [iterate_dims], for a supported order, yields every combination of
    an X value, a Y value and a transform, once for each way of choosing
    the three positions: as many triples as the product of the three
    lengths, and none when one of the lists is empty. *)
Theorem iterate_dims_cross_product {T : Type} (xs ys : list Z) (ts : list T)
    (iterorder : list string) :
  supported_iterorder iterorder ->
  exists dims,
    iterate_dims xs ys ts iterorder = Ok dims /\
    length dims = (length xs * length ys * length ts)%nat /\
    (forall a b t, (a, b, t) ∈ dims <-> a ∈ xs /\ b ∈ ys /\ t ∈ ts).
Proof.
  intros Hio. destruct (iterate_dims_ok xs ys ts iterorder Hio) as [dims Hd].
  exists dims. split; [exact Hd |]. split.
  - unfold iterate_dims in Hd.
    assert (Hin : forall (f : Z -> Z -> T -> Z * Z * T) l u,
              length (flat_map (fun v => map (f u v) ts) l) =
              (length l * length ts)%nat).
    { intros f l u. apply flat_map_uniform_length. intros v.
      rewrite length_map. reflexivity. }
    repeat case_decide; [| | discriminate]; ok_subst Hd.
    + rewrite (flat_map_uniform_length _ (length ys * length ts)).
      * lia.
      * intros u. apply (Hin (fun u v t => (u, v, t))).
    + rewrite (flat_map_uniform_length _ (length xs * length ts)).
      * lia.
      * intros v. apply (Hin (fun v u t => (u, v, t))).
  - intros a b t. exact (iterate_dims_elem_of xs ys ts iterorder dims a b t Hd).
Qed.

Lemma iterate_dims_cross_product_witness :
  exists dims,
    iterate_dims [0; 5] [] [@None Z] IterOrder.TransformHeightWidth = Ok dims /\
    length dims = (length [0; 5]%Z * length (@nil Z) * length [@None Z])%nat /\
    (forall a b t, (a, b, t) ∈ dims <-> a ∈ [0; 5] /\ b ∈ [] /\ t ∈ [@None Z]).
Proof.
  apply (iterate_dims_cross_product [0; 5] [] [@None Z]
           IterOrder.TransformHeightWidth).
  left. reflexivity.
Defined.

Lemma append_last_cons (offsets : list Z) (last : Z) :
  exists a l, append_last offsets last = a :: l /\
              (forall b l', offsets = b :: l' -> a = b).
Proof.
  unfold append_last. destruct offsets as [| b l']; simpl.
  - exists last, []. split; [reflexivity | discriminate].
  - destruct (negb _).
    + exists b, (l' ++ [last]). split; [reflexivity | congruence].
    + exists b, l'. split; [reflexivity | congruence].
Qed.

(** X18.  A call that returns returns at least one window, and the first one
    has no transform; when the steps are positive the first window is
    the one at the origin. *)
Theorem first_window {A : Type} (width height : Z) (order : list string)
    (maxWindowSize : Z) (overlapPercent : Q)
    (transforms : list (option (A -> result A)))
    (overrideWidth overrideHeight : option Z) (iterorder : list string)
    (wins : list (SlidingWindow A)) :
  let wsX := windowSize maxWindowSize overrideWidth width in
  let wsY := windowSize maxWindowSize overrideHeight height in
  generateForSize width height order maxWindowSize overlapPercent transforms
    overrideWidth overrideHeight iterorder = Ok wins ->
  exists win rest,
    wins = win :: rest /\ transform win = None /\
    w win = wsX /\ h win = wsY /\ dimOrder win = order /\
    (1 <= stepSize wsX overlapPercent -> x win = 0) /\
    (1 <= stepSize wsY overlapPercent -> y win = 0).
Proof.
  intros wsX wsY Hgen.
  unfold generateForSize in Hgen. cbv zeta in Hgen.
  fold (windowSize maxWindowSize overrideWidth width) in Hgen.
  fold (windowSize maxWindowSize overrideHeight height) in Hgen.
  fold wsX wsY in Hgen. fold (stepSize wsX overlapPercent) in Hgen.
  fold (stepSize wsY overlapPercent) in Hgen.
  destruct (py_range 0 (width - wsX + 1) _) as [rx | e] eqn:Hrx;
    [| discriminate].
  destruct (py_range 0 (height - wsY + 1) _) as [ry | e] eqn:Hry;
    [| discriminate].
  cbn [bind] in Hgen.
  destruct (append_last_cons rx (width - wsX)) as (a & xs & Exs & Ha).
  destruct (append_last_cons ry (height - wsY)) as (b & ys & Eys & Hb).
  rewrite Exs, Eys in Hgen.
  assert (HaO : 1 <= stepSize wsX overlapPercent -> a = 0).
  { intros Hs. unfold py_range in Hrx.
    destruct (Z.eqb_spec (stepSize wsX overlapPercent) 0); [lia |].
    rewrite range_length_up in Hrx by lia.
    assert (wsX <= width) by (unfold wsX, windowSize; lia).
    destruct (Z.leb_spec (width - wsX + 1) 0); [lia |].
    assert (0 <= (width - wsX + 1 - 0 - 1) / stepSize wsX overlapPercent)
      by (apply Z.div_pos; lia).
    destruct (Z.to_nat _) as [| cnt] eqn:En in Hrx; [lia |].
    ok_subst Hrx. simpl in Ha. rewrite (Ha _ _ eq_refl). lia. }
  assert (HbO : 1 <= stepSize wsY overlapPercent -> b = 0).
  { intros Hs. unfold py_range in Hry.
    destruct (Z.eqb_spec (stepSize wsY overlapPercent) 0); [lia |].
    rewrite range_length_up in Hry by lia.
    assert (wsY <= height) by (unfold wsY, windowSize; lia).
    destruct (Z.leb_spec (height - wsY + 1) 0); [lia |].
    assert (0 <= (height - wsY + 1 - 0 - 1) / stepSize wsY overlapPercent)
      by (apply Z.div_pos; lia).
    destruct (Z.to_nat _) as [| cnt] eqn:En in Hry; [lia |].
    ok_subst Hry. simpl in Hb. rewrite (Hb _ _ eq_refl). lia. }
  unfold iterate_dims in Hgen.
  repeat case_decide; cbn [bind] in Hgen; [| | discriminate];
    simpl in Hgen; ok_subst Hgen;
    eexists _, _; (split; [reflexivity |]); simpl; auto 10.
Qed.

Lemma first_window_witness :
  exists win rest,
    map (fun '(a, b) => mkWindow (A:=Z) a b 4 4 DimOrder.HeightWidthChannel None)
        [(0, 0); (4, 0); (6, 0); (0, 3); (4, 3); (6, 3)] = win :: rest /\
    transform win = None /\ w win = windowSize 4 None 10 /\
    h win = windowSize 4 None 7 /\ dimOrder win = DimOrder.HeightWidthChannel /\
    (1 <= stepSize (windowSize 4 None 10) 0 -> x win = 0) /\
    (1 <= stepSize (windowSize 4 None 7) 0 -> y win = 0).
Proof.
  apply (first_window (A:=Z) 10 7 DimOrder.HeightWidthChannel 4 0 [] None None
           IterOrder.TransformWidthHeight).
  reflexivity.
Defined.

(** ** The layout with a float overlap fraction *)

Lemma axisOffsetsStep_inv (extent ws step : Z) (l : list Z) :
  axisOffsetsStep extent ws step = Ok l ->
  exists r, py_range 0 (extent - ws + 1) step = Ok r /\
            l = append_last r (extent - ws).
Proof.
  unfold axisOffsetsStep.
  destruct (py_range 0 (extent - ws + 1) step) as [r | e]; cbn [bind];
    [| discriminate].
  intros H. ok_subst H. eauto.
Qed.

Lemma axisOffsetsStep_bounds (extent ws step : Z) (l : list Z) (v : Z) :
  1 <= step -> ws <= extent ->
  axisOffsetsStep extent ws step = Ok l -> v ∈ l -> 0 <= v <= extent - ws.
Proof.
  intros Hs Hle Hl Hv.
  apply axisOffsetsStep_inv in Hl as (r & Hr & ->).
  apply elem_of_append_last in Hv as [Hv | ->]; [| lia].
  apply (py_range_elem_of 0 _ step r v ltac:(lia) Hr) in Hv
    as (k & Hk & Hlt & ->).
  nia.
Qed.

Lemma axisOffsetsStep_cover (extent ws step : Z) (l : list Z) (i : Z) :
  1 <= step <= ws -> ws <= extent ->
  axisOffsetsStep extent ws step = Ok l ->
  0 <= i < extent -> exists v, v ∈ l /\ v <= i < v + ws.
Proof.
  intros [Hs1 Hs2] Hle Hl Hi.
  apply axisOffsetsStep_inv in Hl as (r & Hr & ->).
  destruct (Z_lt_le_dec i (extent - ws)) as [Hlt | Hge].
  - pose proof (Z.div_mod i step ltac:(lia)) as Hdm.
    pose proof (Z.mod_pos_bound i step ltac:(lia)) as Hmod.
    assert (0 <= i / step) by (apply Z.div_pos; lia).
    exists (i / step * step). split; [| nia].
    apply elem_of_append_last. left.
    apply (py_range_elem_of 0 _ step r _ ltac:(lia) Hr).
    exists (i / step). split; [assumption |]. split; [nia | lia].
  - exists (extent - ws). split; [| lia].
    apply elem_of_append_last. right. reflexivity.
Qed.

(** The windows of a float call are the offsets crossed with the
    transforms. *)
Lemma generateForSize_float_elem_of {A : Type} (width height : Z)
    (dimOrder : list string) (maxWindowSize : Z) (p : spec_float)
    (transforms : list (option (A -> result A)))
    (overrideWidth overrideHeight : option Z) (io : list string)
    (ovX ovY : Z) (wins : list (SlidingWindow A)) :
  let wsX := windowSize maxWindowSize overrideWidth width in
  let wsY := windowSize maxWindowSize overrideHeight height in
  windowOverlap wsX p = Ok ovX -> windowOverlap wsY p = Ok ovY ->
  generateForSize_float width height dimOrder maxWindowSize p transforms
    overrideWidth overrideHeight io = Ok wins ->
  exists xs ys,
    axisOffsetsStep width wsX (wsX - ovX) = Ok xs /\
    axisOffsetsStep height wsY (wsY - ovY) = Ok ys /\
    forall win,
      win ∈ wins <->
      exists a b t, a ∈ xs /\ b ∈ ys /\ t ∈ None :: transforms /\
                    win = mkWindow a b wsX wsY dimOrder t.
Proof.
  intros wsX wsY HX HY.
  rewrite (generateForSize_float_steps _ _ _ _ _ _ _ _ _ _ _ HX HY).
  cbv zeta. fold wsX wsY.
  destruct (axisOffsetsStep width wsX (wsX - ovX)) as [xs | e]; cbn [bind];
    [| discriminate].
  destruct (axisOffsetsStep height wsY (wsY - ovY)) as [ys | e]; cbn [bind];
    [| discriminate].
  destruct (iterate_dims xs ys (None :: transforms) io) as [dims | e] eqn:Hd;
    cbn [bind]; [| discriminate].
  intros Hw. ok_subst Hw. exists xs, ys. split; [reflexivity |].
  split; [reflexivity |]. intros win.
  rewrite list_elem_of_fmap. split.
  - intros ([[a b] t] & -> & Hin).
    apply (iterate_dims_elem_of _ _ _ _ _ _ _ _ Hd) in Hin.
    exists a, b, t. tauto.
  - intros (a & b & t & Ha & Hb & Ht & ->).
    exists (a, b, t). split; [reflexivity |].
    apply (iterate_dims_elem_of _ _ _ _ _ _ _ _ Hd). auto.
Qed.

(** X19.  With a float overlap fraction: when the two computed overlaps
    int(math.floor(windowSize * overlapPercent)) are at least 0 and below
    the window size, [generateForSize] returns windows whose rectangles
    have exactly [0,width) x [0,height) as their union. *)
Theorem float_coverage {A : Type} (width height : Z) (dimOrder : list string)
    (maxWindowSize : Z) (overlapPercent : spec_float)
    (transforms : list (option (A -> result A)))
    (overrideWidth overrideHeight : option Z) (iterorder : list string)
    (overlapX overlapY : Z) :
  let wsX := windowSize maxWindowSize overrideWidth width in
  let wsY := windowSize maxWindowSize overrideHeight height in
  windowOverlap wsX overlapPercent = Ok overlapX ->
  windowOverlap wsY overlapPercent = Ok overlapY ->
  0 <= overlapX < wsX -> 0 <= overlapY < wsY ->
  supported_iterorder iterorder ->
  exists wins,
    generateForSize_float width height dimOrder maxWindowSize overlapPercent
      transforms overrideWidth overrideHeight iterorder = Ok wins /\
    forall i j,
      (0 <= i < width /\ 0 <= j < height) <->
      (exists win, win ∈ wins /\ contains win i j).
Proof.
  intros wsX wsY HX HY BX BY Hio.
  assert (HwX : wsX <= width) by (unfold wsX, windowSize; lia).
  assert (HwY : wsY <= height) by (unfold wsY, windowSize; lia).
  destruct (generateForSize_float_outcome width height dimOrder maxWindowSize
              overlapPercent transforms overrideWidth overrideHeight iterorder
              overlapX overlapY HX HY) as (_ & _ & Hok).
  fold wsX wsY in Hok.
  destruct (Hok ltac:(lia) ltac:(lia) Hio) as [wins Hgen].
  exists wins. split; [exact Hgen |].
  destruct (generateForSize_float_elem_of width height dimOrder maxWindowSize
              overlapPercent transforms overrideWidth overrideHeight iterorder
              overlapX overlapY wins HX HY Hgen) as (xs & ys & Hxs & Hys & Hmem).
  fold wsX wsY in Hxs, Hys, Hmem.
  intros i j. split.
  - intros [Hi Hj].
    destruct (axisOffsetsStep_cover width wsX (wsX - overlapX) xs i ltac:(lia) HwX Hxs Hi)
      as (a & Ha & Hai).
    destruct (axisOffsetsStep_cover height wsY (wsY - overlapY) ys j ltac:(lia) HwY Hys Hj)
      as (b & Hb & Hbj).
    exists (mkWindow a b wsX wsY dimOrder None). split.
    + apply Hmem. exists a, b, None. repeat split; try assumption.
      apply list_elem_of_here.
    + unfold contains. simpl. lia.
  - intros (win & Hin & Hc).
    apply Hmem in Hin as (a & b & t & Ha & Hb & _ & ->).
    unfold contains in Hc. simpl in Hc.
    pose proof (axisOffsetsStep_bounds width wsX (wsX - overlapX) xs a ltac:(lia) HwX Hxs Ha).
    pose proof (axisOffsetsStep_bounds height wsY (wsY - overlapY) ys b ltac:(lia) HwY Hys Hb).
    lia.
Qed.

Lemma float_coverage_witness :
  exists wins,
    generateForSize_float (A:=Z) 25 12 DimOrder.HeightWidthChannel 10
      (double 6305039478318694 (-53)) [] None None
      IterOrder.TransformWidthHeight = Ok wins /\
    forall i j,
      (0 <= i < 25 /\ 0 <= j < 12) <->
      (exists win, win ∈ wins /\ contains win i j).
Proof.
  apply (float_coverage (A:=Z) 25 12 DimOrder.HeightWidthChannel 10
           (double 6305039478318694 (-53)) [] None None
           IterOrder.TransformWidthHeight 7 7);
    first [ reflexivity | split; [lia | reflexivity] | left; reflexivity
          | right; reflexivity ].
Defined.

(** X20.  With a float overlap fraction: when the two computed overlaps
    are below the window size and the window size is at least 1 on both
    axes, every window that [generateForSize] returns has w > 0, h > 0,
    x >= 0, y >= 0, x + w <= width and y + h <= height. *)
Theorem float_windows_in_bounds {A : Type} (width height : Z)
    (dimOrder : list string) (maxWindowSize : Z) (overlapPercent : spec_float)
    (transforms : list (option (A -> result A)))
    (overrideWidth overrideHeight : option Z) (iterorder : list string)
    (overlapX overlapY : Z) (wins : list (SlidingWindow A))
    (win : SlidingWindow A) :
  let wsX := windowSize maxWindowSize overrideWidth width in
  let wsY := windowSize maxWindowSize overrideHeight height in
  windowOverlap wsX overlapPercent = Ok overlapX ->
  windowOverlap wsY overlapPercent = Ok overlapY ->
  1 <= wsX -> 1 <= wsY -> overlapX < wsX -> overlapY < wsY ->
  generateForSize_float width height dimOrder maxWindowSize overlapPercent
    transforms overrideWidth overrideHeight iterorder = Ok wins ->
  win ∈ wins -> window_ok width height win.
Proof.
  intros wsX wsY HX HY BX BY SX SY Hgen Hin.
  assert (HwX : wsX <= width) by (unfold wsX, windowSize; lia).
  assert (HwY : wsY <= height) by (unfold wsY, windowSize; lia).
  destruct (generateForSize_float_elem_of width height dimOrder maxWindowSize
              overlapPercent transforms overrideWidth overrideHeight iterorder
              overlapX overlapY wins HX HY Hgen) as (xs & ys & Hxs & Hys & Hmem).
  fold wsX wsY in Hxs, Hys, Hmem.
  apply Hmem in Hin as (a & b & t & Ha & Hb & _ & ->).
  pose proof (axisOffsetsStep_bounds width wsX (wsX - overlapX) xs a ltac:(lia) HwX Hxs Ha).
  pose proof (axisOffsetsStep_bounds height wsY (wsY - overlapY) ys b ltac:(lia) HwY Hys Hb).
  unfold window_ok. simpl. lia.
Qed.

Lemma float_windows_in_bounds_witness :
  window_ok 25 12 (mkWindow (A:=Z) 15 2 10 10 DimOrder.HeightWidthChannel None).
Proof.
  apply (float_windows_in_bounds (A:=Z) 25 12 DimOrder.HeightWidthChannel 10
           (double 6305039478318694 (-53)) [] None None
           IterOrder.TransformWidthHeight 7 7
           [ mkWindow 0 0 10 10 DimOrder.HeightWidthChannel None;
             mkWindow 3 0 10 10 DimOrder.HeightWidthChannel None;
             mkWindow 6 0 10 10 DimOrder.HeightWidthChannel None;
             mkWindow 9 0 10 10 DimOrder.HeightWidthChannel None;
             mkWindow 12 0 10 10 DimOrder.HeightWidthChannel None;
             mkWindow 15 0 10 10 DimOrder.HeightWidthChannel None;
             mkWindow 0 2 10 10 DimOrder.HeightWidthChannel None;
             mkWindow 3 2 10 10 DimOrder.HeightWidthChannel None;
             mkWindow 6 2 10 10 DimOrder.HeightWidthChannel None;
             mkWindow 9 2 10 10 DimOrder.HeightWidthChannel None;
             mkWindow 12 2 10 10 DimOrder.HeightWidthChannel None;
             mkWindow 15 2 10 10 DimOrder.HeightWidthChannel None ]);
    first [ reflexivity | by_computation | in_list ].
Defined.
